(** * Draw-call dispatch of [GLPrimitive] and the built-in [ShaderPool]

    A shallow embedding of
    - [packages/rhi-webgl/src/GLPrimitive.ts] (class [GLPrimitive]) and
    - [packages/core/src/shader/ShaderPool.ts] (class [ShaderPool]).

    The WebGL context and the logger are outside the repository: every
    call made on them is recorded, in program order, in a trace.  A method
    of [GLPrimitive] is a computation over the mutable fields of the
    instance that returns normally or throws, and that emits the calls it
    made up to that point. *)

From stdpp Require Import base option list strings gmap.
From Stdlib Require Import ZArith Lia.

Local Open Scope Z_scope.

(** ** JavaScript values used by the code *)

(** [!x] on a number: [0] is the falsy number ([NaN] is not modelled). *)
Definition truthy (n : Z) : bool := negb (n =? 0).

(** Handles of GPU objects: two handles are the same object iff equal. *)
Definition WebGLBuffer := nat.
Definition WebGLVertexArrayObject := nat.

(** ** [Map<number, V>]: insertion-ordered, one entry per key *)
Module JSMap.

Definition t (V : Type) := list (Z * V).

Definition empty {V} : t V := [].

Fixpoint get {V} (k : Z) (m : t V) : option V :=
  match m with
  | [] => None
  | (k', v) :: r => if k' =? k then Some v else get k r
  end.

Definition has {V} (k : Z) (m : t V) : bool :=
  match get k m with Some _ => true | None => false end.

(** [set] on a present key keeps the entry's position; a new key goes
    last. *)
Fixpoint set {V} (k : Z) (v : V) (m : t V) : t V :=
  match m with
  | [] => [(k, v)]
  | (k', v') :: r => if k' =? k then (k', v) :: r else (k', v') :: set k v r
  end.

(** The values in the order [forEach] visits them. *)
Definition values {V} (m : t V) : list V := map snd m.

Definition keys {V} (m : t V) : list Z := map fst m.

End JSMap.

(** ** Calls on the environment *)

Module gl.

Inductive target := ARRAY_BUFFER | ELEMENT_ARRAY_BUFFER.

(** One constructor per method of the rendering context the code calls,
    arguments in call order.  [createVertexArray] carries the object it
    returned. *)
Inductive call :=
| createVertexArray (returned : WebGLVertexArrayObject)
| bindVertexArray (vao : option WebGLVertexArrayObject)
| deleteVertexArray (vao : WebGLVertexArrayObject)
| bindBuffer (tgt : target) (buffer : option WebGLBuffer)
| enableVertexAttribArray (loc : Z)
| disableVertexAttribArray (loc : Z)
| vertexAttribPointer (loc size type : Z) (normalized : bool) (stride offset : Z)
| vertexAttribDivisor (loc divisor : Z)
| drawElements (topology count glIndexType start : Z)
| drawArrays (topology start count : Z)
| drawElementsInstanced (topology count glIndexType start instanceCount : Z)
| drawArraysInstanced (topology start count instanceCount : Z).

End gl.

Module Logger.

Inductive entry :=
| error (msg : string)
| warn (msg : string).

End Logger.

Inductive Event :=
| GL (c : gl.call)
| Log (e : Logger.entry).

Definition Trace := list Event.

(** ** Data read by [GLPrimitive] (declared in [@oasis-engine/core]) *)

Module Buffer.
Record t := mk { _nativeBuffer : WebGLBuffer }.
End Buffer.

Module VertexBufferBinding.
Record t := mk { buffer : Buffer.t; stride : Z }.
End VertexBufferBinding.

Module IndexBufferBinding.
Record t := mk { buffer : Buffer.t }.
End IndexBufferBinding.

Module ElementInfo.
Record t := mk { size : Z; type : Z }.
End ElementInfo.

Module VertexElement.
Record t := mk {
  bindingIndex : Z;
  normalized : bool;
  offset : Z;
  instanceDivisor : Z;
  _glElementInfo : ElementInfo.t
}.
End VertexElement.

Module Primitive.
Record t := mk {
  vertexBufferBindings : list (option VertexBufferBinding.t);
  indexBufferBinding : option IndexBufferBinding.t;
  instanceCount : Z;
  _glIndexType : Z;
  _vertexElementMap : gmap string VertexElement.t
}.
End Primitive.

Module SubPrimitive.
Record t := mk { topology : Z; start : Z; count : Z }.
End SubPrimitive.

(** [shaderProgram : any]: the two properties [GLPrimitive] reads.
    [attributeLocation] lists the object's properties in the order
    [for ... in] enumerates them. *)
Module ShaderProgram.
Record t := mk { id : Z; attributeLocation : list (string * Z) }.
End ShaderProgram.

(** [a[i]] on an array of objects, some of whose slots may be empty or
    hold [null] ([None] in the list): [undefined] or [null] outside
    [0 .. length-1] and on such a slot. *)
Definition array_get {A} (a : list (option A)) (i : Z) : option A :=
  if 0 <=? i then
    match a !! Z.to_nat i with
    | Some (Some x) => Some x
    | _ => None
    end
  else None.

(** [o[name]] on a plain object used as a map from names to objects.  A
    name the object does not have as a key of its own is looked up in
    [Object.prototype], whose members are functions (and, for
    [__proto__], an object): truthy values that are not entries of the
    map. *)
Definition Object_prototype_keys : list string :=
  ["constructor"; "toString"; "toLocaleString"; "valueOf"; "hasOwnProperty";
   "isPrototypeOf"; "propertyIsEnumerable"; "__proto__"; "__defineGetter__";
   "__defineSetter__"; "__lookupGetter__"; "__lookupSetter__"].

Inductive Property (A : Type) :=
| Own (a : A)
| Inherited
| Undefined.
Arguments Own {A} a.
Arguments Inherited {A}.
Arguments Undefined {A}.

Definition object_get {A} (o : gmap string A) (name : string) : Property A :=
  match o !! name with
  | Some a => Own a
  | None =>
      if bool_decide (name ∈ Object_prototype_keys) then Inherited else Undefined
  end.

(** ** Computations: mutable state, thrown errors, emitted calls *)

Inductive Exn := TypeError.

Inductive Outcome (A : Type) :=
| Returned (a : A)
| Thrown (e : Exn).
Arguments Returned {A} a.
Arguments Thrown {A} e.

(** A computation runs from a state and gives how it ended, the state it
    left and the calls it made, in order.  What was done before a throw
    stays done. *)
Section Monad.
Context {S E : Type}.

Definition M (A : Type) : Type := S -> Outcome A * S * list E.

Definition ret {A} (a : A) : M A := fun s => (Returned a, s, []).

Definition bind {A B} (m : M A) (f : A -> M B) : M B :=
  fun s =>
    match m s with
    | (Returned a, s1, t1) =>
        let r := f a s1 in (r.1.1, r.1.2, t1 ++ r.2)
    | (Thrown e, s1, t1) => (Thrown e, s1, t1)
    end.

Definition throw {A} (e : Exn) : M A := fun s => (Thrown e, s, []).
Definition emit (e : E) : M unit := fun s => (Returned tt, s, [e]).
Definition get_state : M S := fun s => (Returned s, s, []).
Definition modify (f : S -> S) : M unit := fun s => (Returned tt, f s, []).
Definition when (b : bool) (m : M unit) : M unit := if b then m else ret tt.

Definition outcome {A} (r : Outcome A * S * list E) : Outcome A := r.1.1.
Definition final {A} (r : Outcome A * S * list E) : S := r.1.2.
Definition emitted {A} (r : Outcome A * S * list E) : list E := r.2.
End Monad.
Arguments M : clear implicits.

Declare Scope m_scope.
Delimit Scope m_scope with m.
Notation "x <- m ;; k" := (bind m (fun x => k))
  (at level 100, m at next level, right associativity) : m_scope.
Notation "m ;; k" := (bind m (fun _ => k))
  (at level 100, right associativity) : m_scope.
Local Open Scope m_scope.

(** The mutable fields of a [GLPrimitive] ([attribLocArray] has no
    initialiser), and the number of vertex array objects the context has
    handed out, which names the next one. *)
Record State := mkState {
  attribLocArray : option (list Z);
  vao : JSMap.t WebGLVertexArrayObject;
  gl_created : nat
}.

(** The [readonly] fields set by the constructor from [rhi.canIUse]. *)
Record Caps := mkCaps {
  canUseInstancedArrays : bool;
  _useVao : bool
}.

(** ** [GLPrimitive] *)
Module GLPrimitive.

Definition Method := M State Event.

(** State of a freshly constructed instance. *)
Definition constructed (created : nat) : State :=
  {| attribLocArray := None; vao := JSMap.empty; gl_created := created |}.

Definition with_attribLocArray (l : list Z) (s : State) : State :=
  {| attribLocArray := Some l; vao := vao s; gl_created := gl_created s |}.

Definition with_vao_set (k : Z) (v : WebGLVertexArrayObject) (s : State) : State :=
  {| attribLocArray := attribLocArray s; vao := JSMap.set k v (vao s);
     gl_created := gl_created s |}.

Definition with_created (s : State) : State :=
  {| attribLocArray := attribLocArray s; vao := vao s;
     gl_created := S (gl_created s) |}.

Definition set_attribLocArray (l : list Z) : Method unit :=
  modify (with_attribLocArray l).

Definition vao_set (k : Z) (v : WebGLVertexArrayObject) : Method unit :=
  modify (with_vao_set k v).

(** [gl.createVertexArray()]: a new object on every call. *)
Definition gl_createVertexArray : Method WebGLVertexArrayObject :=
  s <- get_state ;;
  modify with_created ;;
  emit (GL (gl.createVertexArray (gl_created s))) ;;
  ret (gl_created s).

(** [this.attribLocArray.push(loc)]. *)
Definition attribLocArray_push (loc : Z) : Method unit :=
  s <- get_state ;;
  match attribLocArray s with
  | Some l => set_attribLocArray (l ++ [loc])
  | None => throw TypeError
  end.

(** The body of the [for (const name in attributeLocation)] loop of
    [bindBufferAndAttrib], over the properties still to visit;
    [lastBoundVbo] is the loop-carried local. *)
Fixpoint bindBufferAndAttrib_loop (c : Caps) (primitive : Primitive.t)
    (attributeLocation : list (string * Z))
    (lastBoundVbo : option WebGLBuffer) : Method unit :=
  match attributeLocation with
  | [] => ret tt
  | (name, loc) :: rest =>
      if loc =? -1 then
        bindBufferAndAttrib_loop c primitive rest lastBoundVbo
      else
        match object_get (Primitive._vertexElementMap primitive) name with
        | Own element =>
            match array_get (Primitive.vertexBufferBindings primitive)
                            (VertexElement.bindingIndex element) with
            | None => throw TypeError
            | Some binding =>
                let vbo := Buffer._nativeBuffer (VertexBufferBinding.buffer binding) in
                let stride := VertexBufferBinding.stride binding in
                let rebind := negb (bool_decide (lastBoundVbo = Some vbo)) in
                when rebind (emit (GL (gl.bindBuffer gl.ARRAY_BUFFER (Some vbo)))) ;;
                emit (GL (gl.enableVertexAttribArray loc)) ;;
                emit (GL (gl.vertexAttribPointer loc
                            (ElementInfo.size (VertexElement._glElementInfo element))
                            (ElementInfo.type (VertexElement._glElementInfo element))
                            (VertexElement.normalized element) stride
                            (VertexElement.offset element))) ;;
                when (canUseInstancedArrays c)
                     (emit (GL (gl.vertexAttribDivisor loc
                                  (VertexElement.instanceDivisor element)))) ;;
                attribLocArray_push loc ;;
                bindBufferAndAttrib_loop c primitive rest
                  (if rebind then Some vbo else lastBoundVbo)
            end
        | Inherited =>
            (* [element] is a member of [Object.prototype]: its
               [bindingIndex] is [undefined], and so is
               [vertexBufferBindings[undefined]], which
               [const { buffer, stride } = ...] cannot destructure *)
            throw TypeError
        | Undefined =>
            emit (Log (Logger.warn ("vertex attribute not found: " +:+ name))) ;;
            bindBufferAndAttrib_loop c primitive rest lastBoundVbo
        end
  end.

Definition bindBufferAndAttrib (c : Caps) (primitive : Primitive.t)
    (shaderProgram : ShaderProgram.t) : Method unit :=
  set_attribLocArray [] ;;
  bindBufferAndAttrib_loop c primitive
    (ShaderProgram.attributeLocation shaderProgram) None ;;
  emit (GL (gl.bindBuffer gl.ARRAY_BUFFER None)).

Fixpoint disableAttrib_loop (locs : list Z) : Method unit :=
  match locs with
  | [] => ret tt
  | loc :: rest =>
      emit (GL (gl.disableVertexAttribArray loc)) ;; disableAttrib_loop rest
  end.

Definition disableAttrib : Method unit :=
  s <- get_state ;;
  match attribLocArray s with
  | Some l => disableAttrib_loop l
  | None => throw TypeError
  end.

Definition registerVAO (c : Caps) (primitive : Primitive.t)
    (shaderProgram : ShaderProgram.t) : Method unit :=
  vao <- gl_createVertexArray ;;
  emit (GL (gl.bindVertexArray (Some vao))) ;;
  match Primitive.indexBufferBinding primitive with
  | Some indexBufferBinding =>
      emit (GL (gl.bindBuffer gl.ELEMENT_ARRAY_BUFFER
                  (Some (Buffer._nativeBuffer
                           (IndexBufferBinding.buffer indexBufferBinding)))))
  | None => ret tt
  end ;;
  bindBufferAndAttrib c primitive shaderProgram ;;
  emit (GL (gl.bindVertexArray None)) ;;
  emit (GL (gl.bindBuffer gl.ELEMENT_ARRAY_BUFFER None)) ;;
  disableAttrib ;;
  vao_set (ShaderProgram.id shaderProgram) vao.

Definition draw (c : Caps) (primitive : Primitive.t)
    (shaderProgram : ShaderProgram.t) (subPrimitive : SubPrimitive.t) : Method unit :=
  let indexBufferBinding := Primitive.indexBufferBinding primitive in
  let instanceCount := Primitive.instanceCount primitive in
  let _glIndexType := Primitive._glIndexType primitive in
  let topology := SubPrimitive.topology subPrimitive in
  let start := SubPrimitive.start subPrimitive in
  let count := SubPrimitive.count subPrimitive in
  (if _useVao c then
     s <- get_state ;;
     when (negb (JSMap.has (ShaderProgram.id shaderProgram) (vao s)))
          (registerVAO c primitive shaderProgram) ;;
     s <- get_state ;;
     emit (GL (gl.bindVertexArray (JSMap.get (ShaderProgram.id shaderProgram) (vao s))))
   else
     bindBufferAndAttrib c primitive shaderProgram) ;;
  (if negb (truthy instanceCount) then
     match indexBufferBinding with
     | Some ibb =>
         if _useVao c then
           emit (GL (gl.drawElements topology count _glIndexType start))
         else
           emit (GL (gl.bindBuffer gl.ELEMENT_ARRAY_BUFFER
                       (Some (Buffer._nativeBuffer (IndexBufferBinding.buffer ibb))))) ;;
           emit (GL (gl.drawElements topology count _glIndexType start)) ;;
           emit (GL (gl.bindBuffer gl.ELEMENT_ARRAY_BUFFER None))
     | None => emit (GL (gl.drawArrays topology start count))
     end
   else
     if canUseInstancedArrays c then
       match indexBufferBinding with
       | Some ibb =>
           if _useVao c then
             emit (GL (gl.drawElementsInstanced topology count _glIndexType start
                         instanceCount))
           else
             emit (GL (gl.bindBuffer gl.ELEMENT_ARRAY_BUFFER
                         (Some (Buffer._nativeBuffer (IndexBufferBinding.buffer ibb))))) ;;
             emit (GL (gl.drawElementsInstanced topology count _glIndexType start
                         instanceCount)) ;;
             emit (GL (gl.bindBuffer gl.ELEMENT_ARRAY_BUFFER None))
       | None => emit (GL (gl.drawArraysInstanced topology start count instanceCount))
       end
     else
       emit (Log (Logger.error "ANGLE_instanced_arrays extension is not supported"))) ;;
  (if _useVao c then emit (GL (gl.bindVertexArray None)) else disableAttrib).

Fixpoint destroy_forEach (vaos : list WebGLVertexArrayObject) : Method unit :=
  match vaos with
  | [] => ret tt
  | v :: rest => emit (GL (gl.deleteVertexArray v)) ;; destroy_forEach rest
  end.

Definition destroy (c : Caps) : Method unit :=
  if _useVao c then
    s <- get_state ;; destroy_forEach (JSMap.values (vao s))
  else ret tt.

(** *** The three blocks of [draw], and calls in sequence *)

(** Lines 39-47 of [draw]: bind the cached vertex array object, or the
    buffers and attributes. *)
Definition draw_bind (c : Caps) (primitive : Primitive.t)
    (shaderProgram : ShaderProgram.t) : Method unit :=
  if _useVao c then
    s <- get_state ;;
    when (negb (JSMap.has (ShaderProgram.id shaderProgram) (vao s)))
         (registerVAO c primitive shaderProgram) ;;
    s <- get_state ;;
    emit (GL (gl.bindVertexArray (JSMap.get (ShaderProgram.id shaderProgram) (vao s))))
  else
    bindBufferAndAttrib c primitive shaderProgram.

(** Lines 49-82 of [draw]: issue the draw call. *)
Definition draw_issue (c : Caps) (primitive : Primitive.t)
    (subPrimitive : SubPrimitive.t) : Method unit :=
  let indexBufferBinding := Primitive.indexBufferBinding primitive in
  let instanceCount := Primitive.instanceCount primitive in
  let _glIndexType := Primitive._glIndexType primitive in
  let topology := SubPrimitive.topology subPrimitive in
  let start := SubPrimitive.start subPrimitive in
  let count := SubPrimitive.count subPrimitive in
  if negb (truthy instanceCount) then
    match indexBufferBinding with
    | Some ibb =>
        if _useVao c then
          emit (GL (gl.drawElements topology count _glIndexType start))
        else
          emit (GL (gl.bindBuffer gl.ELEMENT_ARRAY_BUFFER
                      (Some (Buffer._nativeBuffer (IndexBufferBinding.buffer ibb))))) ;;
          emit (GL (gl.drawElements topology count _glIndexType start)) ;;
          emit (GL (gl.bindBuffer gl.ELEMENT_ARRAY_BUFFER None))
    | None => emit (GL (gl.drawArrays topology start count))
    end
  else
    if canUseInstancedArrays c then
      match indexBufferBinding with
      | Some ibb =>
          if _useVao c then
            emit (GL (gl.drawElementsInstanced topology count _glIndexType start
                        instanceCount))
          else
            emit (GL (gl.bindBuffer gl.ELEMENT_ARRAY_BUFFER
                        (Some (Buffer._nativeBuffer (IndexBufferBinding.buffer ibb))))) ;;
            emit (GL (gl.drawElementsInstanced topology count _glIndexType start
                        instanceCount)) ;;
            emit (GL (gl.bindBuffer gl.ELEMENT_ARRAY_BUFFER None))
      | None => emit (GL (gl.drawArraysInstanced topology start count instanceCount))
      end
    else
      emit (Log (Logger.error "ANGLE_instanced_arrays extension is not supported")).

(** Lines 84-89 of [draw]: unbind. *)
Definition draw_unbind (c : Caps) : Method unit :=
  if _useVao c then emit (GL (gl.bindVertexArray None)) else disableAttrib.

(** One call of [draw]: the arguments, and the primitive as it is when
    the call is made (the instance keeps a reference to an object its
    owner may change between calls). *)
Record DrawCall := mkDrawCall {
  primitive : Primitive.t;
  shaderProgram : ShaderProgram.t;
  subPrimitive : SubPrimitive.t
}.

Definition draw_call (c : Caps) (d : DrawCall) : Method unit :=
  draw c (primitive d) (shaderProgram d) (subPrimitive d).

(** Calls of [draw] on one instance, one after the other; a caller that
    catches a thrown error can go on calling.  Each call is listed with
    its result. *)
Fixpoint draws (c : Caps) (calls : list DrawCall) (s : State)
    : list (DrawCall * (Outcome unit * State * Trace)) :=
  match calls with
  | [] => []
  | d :: rest =>
      let r := draw_call c d s in (d, r) :: draws c rest (final r)
  end.

Definition draws_final (c : Caps) (calls : list DrawCall) (s : State) : State :=
  fold_left (fun s d => final (draw_call c d s)) calls s.

End GLPrimitive.

(** ** [ShaderPool] *)

(** [Shader.create] is defined in [Shader.ts]; here a call of it is
    recorded with its arguments.  The GLSL sources are the modules
    [ShaderPool.ts] imports, named as imported. *)
Module Shader.

Inductive glsl :=
| blinnPhongFs | blinnPhongVs
| pbrFs | pbrVs
| shadowMapFs | shadowMapVs
| shadowFs
| skyboxFs | skyboxVs
| particleFs | particleVs.

Record create_call := mk {
  name : string;
  vertexSource : glsl;
  fragmentSource : glsl
}.

Definition create (name : string) (vertexSource fragmentSource : glsl)
    : M unit create_call unit :=
  emit (mk name vertexSource fragmentSource).

End Shader.

Module ShaderPool.
Import Shader.

Definition init : M unit Shader.create_call unit :=
  Shader.create "blinn-phong" blinnPhongVs blinnPhongFs ;;
  Shader.create "pbr" pbrVs pbrFs ;;
  Shader.create "shadow-map" shadowMapVs shadowMapFs ;;
  Shader.create "shadow" shadowMapVs shadowFs ;;
  Shader.create "skybox" skyboxVs skyboxFs ;;
  Shader.create "particle-shader" particleVs particleFs.

End ShaderPool.

(** ** Reading a trace *)

Definition is_draw_call (e : Event) : bool :=
  match e with
  | GL (gl.drawElements _ _ _ _) | GL (gl.drawArrays _ _ _)
  | GL (gl.drawElementsInstanced _ _ _ _ _) | GL (gl.drawArraysInstanced _ _ _ _) => true
  | _ => false
  end.

Definition draw_calls (t : Trace) : Trace := List.filter is_draw_call t.

Definition is_indexed_draw (e : Event) : bool :=
  match e with
  | GL (gl.drawElements _ _ _ _) | GL (gl.drawElementsInstanced _ _ _ _ _) => true
  | _ => false
  end.

(** Calls that specify vertex buffers and attributes. *)
Definition is_attrib_spec (e : Event) : bool :=
  match e with
  | GL (gl.bindBuffer _ _) | GL (gl.enableVertexAttribArray _)
  | GL (gl.vertexAttribPointer _ _ _ _ _ _) | GL (gl.vertexAttribDivisor _ _) => true
  | _ => false
  end.

Fixpoint created (t : Trace) : list WebGLVertexArrayObject :=
  match t with
  | [] => []
  | GL (gl.createVertexArray v) :: r => v :: created r
  | _ :: r => created r
  end.

Fixpoint enabled_locs (t : Trace) : list Z :=
  match t with
  | [] => []
  | GL (gl.enableVertexAttribArray loc) :: r => loc :: enabled_locs r
  | _ :: r => enabled_locs r
  end.

Fixpoint warnings (t : Trace) : list string :=
  match t with
  | [] => []
  | Log (Logger.warn msg) :: r => msg :: warnings r
  | _ :: r => warnings r
  end.

Fixpoint errors (t : Trace) : list string :=
  match t with
  | [] => []
  | Log (Logger.error msg) :: r => msg :: errors r
  | _ :: r => errors r
  end.

(** Binding state of a context without vertex array objects after the
    calls of [t]: [bindBuffer] sets the binding of its target,
    [enableVertexAttribArray] and [disableVertexAttribArray] switch one
    attribute location, [bindVertexArray] sets the bound vertex array. *)
Fixpoint bound_after (tgt : gl.target) (t : Trace) (before : option WebGLBuffer)
    : option WebGLBuffer :=
  match t with
  | [] => before
  | GL (gl.bindBuffer tgt' b) :: r =>
      bound_after tgt r
        (match tgt, tgt' with
         | gl.ARRAY_BUFFER, gl.ARRAY_BUFFER
         | gl.ELEMENT_ARRAY_BUFFER, gl.ELEMENT_ARRAY_BUFFER => b
         | _, _ => before
         end)
  | _ :: r => bound_after tgt r before
  end.

Fixpoint attrib_enabled_after (loc : Z) (t : Trace) (before : bool) : bool :=
  match t with
  | [] => before
  | GL (gl.enableVertexAttribArray l) :: r =>
      attrib_enabled_after loc r (if l =? loc then true else before)
  | GL (gl.disableVertexAttribArray l) :: r =>
      attrib_enabled_after loc r (if l =? loc then false else before)
  | _ :: r => attrib_enabled_after loc r before
  end.

Fixpoint vertex_array_after (t : Trace) (before : option WebGLVertexArrayObject)
    : option WebGLVertexArrayObject :=
  match t with
  | [] => before
  | GL (gl.bindVertexArray v) :: r => vertex_array_after r v
  | _ :: r => vertex_array_after r before
  end.

(** ** Derived descriptions used to state the properties *)

Import GLPrimitive.

Definition disable_events (locs : list Z) : Trace :=
  map (fun loc => GL (gl.disableVertexAttribArray loc)) locs.

Section Loop.
Variable c : Caps.
Variable p : Primitive.t.

Definition vbo_of (b : VertexBufferBinding.t) : WebGLBuffer :=
  Buffer._nativeBuffer (VertexBufferBinding.buffer b).

(** The calls that configure one attribute from its vertex element and
    buffer binding, after [last] was bound. *)
Definition configure (loc : Z) (el : VertexElement.t) (b : VertexBufferBinding.t)
    (last : option WebGLBuffer) : Trace :=
  (if bool_decide (last = Some (vbo_of b)) then []
   else [GL (gl.bindBuffer gl.ARRAY_BUFFER (Some (vbo_of b)))]) ++
  [GL (gl.enableVertexAttribArray loc);
   GL (gl.vertexAttribPointer loc
         (ElementInfo.size (VertexElement._glElementInfo el))
         (ElementInfo.type (VertexElement._glElementInfo el))
         (VertexElement.normalized el) (VertexBufferBinding.stride b)
         (VertexElement.offset el))] ++
  (if canUseInstancedArrays c
   then [GL (gl.vertexAttribDivisor loc (VertexElement.instanceDivisor el))]
   else []).

(** [loop_run attrs last o locs t]: visiting [attrs] with [last] bound
    ends as [o], having pushed [locs] and made the calls [t]. *)
Inductive loop_run : list (string * Z) -> option WebGLBuffer ->
    Outcome unit -> list Z -> Trace -> Prop :=
| run_done last :
    loop_run [] last (Returned tt) [] []
| run_skip name rest last o locs t :
    loop_run rest last o locs t ->
    loop_run ((name, -1) :: rest) last o locs t
| run_missing name loc rest last o locs t :
    loc <> -1 ->
    object_get (Primitive._vertexElementMap p) name = Undefined ->
    loop_run rest last o locs t ->
    loop_run ((name, loc) :: rest) last o locs
      (Log (Logger.warn ("vertex attribute not found: " +:+ name)) :: t)
| run_unbound name loc rest last el :
    loc <> -1 ->
    object_get (Primitive._vertexElementMap p) name = Own el ->
    array_get (Primitive.vertexBufferBindings p) (VertexElement.bindingIndex el) = None ->
    loop_run ((name, loc) :: rest) last (Thrown TypeError) [] []
| run_configured name loc rest last el b o locs t :
    loc <> -1 ->
    object_get (Primitive._vertexElementMap p) name = Own el ->
    array_get (Primitive.vertexBufferBindings p) (VertexElement.bindingIndex el) = Some b ->
    loop_run rest (Some (vbo_of b)) o locs t ->
    loop_run ((name, loc) :: rest) last o (loc :: locs) (configure loc el b last ++ t)
| run_inherited name loc rest last :
    loc <> -1 ->
    object_get (Primitive._vertexElementMap p) name = Inherited ->
    loop_run ((name, loc) :: rest) last (Thrown TypeError) [] [].
End Loop.

Definition issued (c : Caps) (p : Primitive.t) (sub : SubPrimitive.t) : Trace :=
  emitted (draw_issue c p sub (constructed 0)).

(** [gl.bindBuffer(gl.ELEMENT_ARRAY_BUFFER, ...)] of [registerVAO]. *)
Definition element_bind (p : Primitive.t) : Trace :=
  match Primitive.indexBufferBinding p with
  | Some ibb =>
      [GL (gl.bindBuffer gl.ELEMENT_ARRAY_BUFFER
             (Some (Buffer._nativeBuffer (IndexBufferBinding.buffer ibb))))]
  | None => []
  end.

Definition register_open (p : Primitive.t) (v : WebGLVertexArrayObject) : Trace :=
  [GL (gl.createVertexArray v); GL (gl.bindVertexArray (Some v))] ++ element_bind p.

Definition register_close (locs : list Z) : Trace :=
  [GL (gl.bindBuffer gl.ARRAY_BUFFER None); GL (gl.bindVertexArray None);
   GL (gl.bindBuffer gl.ELEMENT_ARRAY_BUFFER None)] ++ disable_events locs.

Arguments issued : simpl never.
Arguments element_bind : simpl never.
Arguments register_open : simpl never.
Arguments register_close : simpl never.
Arguments disable_events : simpl never.
Arguments configure : simpl never.

(** The draw call the claim selects from [instanceCount] and
    [indexBufferBinding]. *)
Definition selected_draw (p : Primitive.t) (sub : SubPrimitive.t) : gl.call :=
  let topology := SubPrimitive.topology sub in
  let start := SubPrimitive.start sub in
  let count := SubPrimitive.count sub in
  let instanceCount := Primitive.instanceCount p in
  let _glIndexType := Primitive._glIndexType p in
  match truthy instanceCount, Primitive.indexBufferBinding p with
  | false, Some _ => gl.drawElements topology count _glIndexType start
  | false, None => gl.drawArrays topology start count
  | true, Some _ => gl.drawElementsInstanced topology count _glIndexType start instanceCount
  | true, None => gl.drawArraysInstanced topology start count instanceCount
  end.

Definition instancing_unsupported (c : Caps) (p : Primitive.t) : bool :=
  truthy (Primitive.instanceCount p) && negb (canUseInstancedArrays c).

(** ** Concrete inputs *)

Module Sample.

Definition vao_instanced : Caps := {| canUseInstancedArrays := true; _useVao := true |}.
Definition vao_only : Caps := {| canUseInstancedArrays := false; _useVao := true |}.
Definition instanced_only : Caps := {| canUseInstancedArrays := true; _useVao := false |}.
Definition bare : Caps := {| canUseInstancedArrays := false; _useVao := false |}.

Definition position : VertexElement.t :=
  VertexElement.mk 0 false 0 0 (ElementInfo.mk 3 5126).
Definition normal_at (bindingIndex : Z) : VertexElement.t :=
  VertexElement.mk bindingIndex true 12 0 (ElementInfo.mk 3 5126).

(** One vertex buffer, no index buffer, not instanced. *)
Definition triangle : Primitive.t :=
  Primitive.mk [Some (VertexBufferBinding.mk (Buffer.mk 7%nat) 24)] None 0 5123
    (<["POSITION" := position]> (<["NORMAL" := normal_at 0]> ∅)).

(** The same with an index buffer. *)
Definition indexed_triangle : Primitive.t :=
  Primitive.mk [Some (VertexBufferBinding.mk (Buffer.mk 7%nat) 24)]
    (Some (IndexBufferBinding.mk (Buffer.mk 9%nat))) 0 5123
    (<["POSITION" := position]> (<["NORMAL" := normal_at 0]> ∅)).

(** Three instances of [triangle]. *)
Definition instanced_triangle : Primitive.t :=
  Primitive.mk [Some (VertexBufferBinding.mk (Buffer.mk 7%nat) 24)] None 3 5123
    (<["POSITION" := position]> (<["NORMAL" := normal_at 0]> ∅)).

(** The normals are declared in a second vertex buffer that was never
    bound: [vertexBufferBindings[1]] is [undefined]. *)
Definition unbound_normals : Primitive.t :=
  Primitive.mk [Some (VertexBufferBinding.mk (Buffer.mk 7%nat) 24)] None 0 5123
    (<["POSITION" := position]> (<["NORMAL" := normal_at 1]> ∅)).

Definition instanced_unbound_normals : Primitive.t :=
  Primitive.mk [Some (VertexBufferBinding.mk (Buffer.mk 7%nat) 24)] None 3 5123
    (<["POSITION" := position]> (<["NORMAL" := normal_at 1]> ∅)).

(** A program with an unused attribute ([-1]) and one the primitives
    above do not have ([TEXCOORD_0]). *)
Definition lit : ShaderProgram.t :=
  ShaderProgram.mk 1 [("POSITION", 0); ("TANGENT", -1); ("TEXCOORD_0", 2); ("NORMAL", 1)].

Definition triangles : SubPrimitive.t := SubPrimitive.mk 4 0 3.

Definition fresh : State := constructed 0.

End Sample.

(** ** Statements taken from the specification *)

(** A call of [draw] binds a vertex array object that the cache holds
    for the program's id. *)
Definition binds_cached_vao (c : Caps) (d : DrawCall) (s : State) : Prop :=
  let r := draw_call c d s in
  exists v,
    JSMap.get (ShaderProgram.id (shaderProgram d)) (vao (final r)) = Some v /\
    In (GL (gl.bindVertexArray (Some v))) (emitted r).

(** A call of [draw] handles unsupported instancing by logging the one
    message and returning, without a draw call. *)
Definition unsupported_instancing_only_logged (c : Caps) (d : DrawCall) (s : State) : Prop :=
  let r := draw_call c d s in
  draw_calls (emitted r) = [] /\
  errors (emitted r) = ["ANGLE_instanced_arrays extension is not supported"] /\
  outcome r = Returned tt.

(** The vertex array objects created by the calls of a sequence that
    were made with the program id [id]; [registered_for] counts only the
    calls that returned. *)
Definition created_by (id : Z) (x : DrawCall * (Outcome unit * State * Trace))
    : list WebGLVertexArrayObject :=
  if ShaderProgram.id (shaderProgram x.1) =? id then created (emitted x.2) else [].

Definition registered_by (id : Z) (x : DrawCall * (Outcome unit * State * Trace))
    : list WebGLVertexArrayObject :=
  match outcome x.2 with
  | Returned _ => created_by id x
  | Thrown _ => []
  end.

Definition created_for (id : Z) (rs : list (DrawCall * (Outcome unit * State * Trace)))
    : list WebGLVertexArrayObject :=
  flat_map (created_by id) rs.

Definition registered_for (id : Z) (rs : list (DrawCall * (Outcome unit * State * Trace)))
    : list WebGLVertexArrayObject :=
  flat_map (registered_by id) rs.

Definition is_delete (e : Event) : bool :=
  match e with GL (gl.deleteVertexArray _) => true | _ => false end.

Definition is_element_bind (e : Event) : bool :=
  match e with GL (gl.bindBuffer gl.ELEMENT_ARRAY_BUFFER (Some _)) => true | _ => false end.

Definition delete_events (vaos : list WebGLVertexArrayObject) : Trace :=
  map (fun v => GL (gl.deleteVertexArray v)) vaos.

(** Calls of [draw] in a sequence create at most one vertex array object
    for each program id. *)
Definition creates_once_per_id (c : Caps) (calls : list DrawCall) (s : State) : Prop :=
  forall id, (length (created_for id (draws c calls s)) <= 1)%nat.

(** How [bindBufferAndAttrib] treats one property of [attributeLocation]:
    [configurable] when the location is not [-1] and the primitive has a
    vertex element of that name, [missing] when the location is not [-1]
    and [_vertexElementMap[name]] is [undefined], [bound_ok] unless the
    location is not [-1] and either the vertex element refers to a vertex
    buffer binding that does not exist, or the name is not a key of
    [_vertexElementMap] and is a member of [Object.prototype]. *)
Definition configurable (p : Primitive.t) (a : string * Z) : bool :=
  negb (a.2 =? -1) &&
  match object_get (Primitive._vertexElementMap p) a.1 with
  | Own _ => true
  | _ => false
  end.

Definition missing (p : Primitive.t) (a : string * Z) : bool :=
  negb (a.2 =? -1) &&
  match object_get (Primitive._vertexElementMap p) a.1 with
  | Undefined => true
  | _ => false
  end.

Definition bound_ok (p : Primitive.t) (a : string * Z) : bool :=
  (a.2 =? -1) ||
  match object_get (Primitive._vertexElementMap p) a.1 with
  | Own el =>
      match array_get (Primitive.vertexBufferBindings p) (VertexElement.bindingIndex el) with
      | Some _ => true
      | None => false
      end
  | Inherited => false
  | Undefined => true
  end.

(** The attributes [bindBufferAndAttrib] gets through: all of them, or
    those before the first that is not [bound_ok]. *)
Fixpoint reached (p : Primitive.t) (attrs : list (string * Z)) : list (string * Z) :=
  match attrs with
  | [] => []
  | a :: rest => if bound_ok p a then a :: reached p rest else []
  end.

Definition bindable (p : Primitive.t) (attrs : list (string * Z)) : bool :=
  forallb (bound_ok p) attrs.

Definition not_found (a : string * Z) : string :=
  "vertex attribute not found: " +:+ a.1.

(** [bindBufferAndAttrib] returns having configured every attribute that
    is neither unused nor missing, and recorded their locations. *)
Definition tolerates_mismatches (c : Caps) (p : Primitive.t) (sp : ShaderProgram.t)
    (s : State) : Prop :=
  let r := bindBufferAndAttrib c p sp s in
  outcome r = Returned tt /\
  enabled_locs (emitted r)
  = map snd (List.filter (configurable p) (ShaderProgram.attributeLocation sp)) /\
  attribLocArray (final r) = Some (enabled_locs (emitted r)).


(** ** The constructor *)

(** The two members of [GLCapabilityType] that [GLPrimitive] asks for. *)
Module GLCapabilityType.
Inductive t := instancedArrays | vertexArrayObject.
End GLCapabilityType.

(** What the constructor reads of [rhi]: [canIUse], and [gl], of which
    the number of vertex array objects created so far is kept. *)
Module WebGLRenderer.
Record t := mk { canIUse : GLCapabilityType.t -> bool; gl_created_so_far : nat }.
End WebGLRenderer.

(** [new GLPrimitive(rhi, primitive)]: the [readonly] fields and the
    initial mutable fields ([vao] an empty map, [attribLocArray] not
    set). *)
Definition new_GLPrimitive (rhi : WebGLRenderer.t) : Caps * State :=
  ({| canUseInstancedArrays :=
        WebGLRenderer.canIUse rhi GLCapabilityType.instancedArrays;
      _useVao := WebGLRenderer.canIUse rhi GLCapabilityType.vertexArrayObject |},
   constructed (WebGLRenderer.gl_created_so_far rhi)).

(** ** Further readings of a trace *)

(** Calls of the vertex-array-object API, and calls of the
    instanced-arrays API. *)
Definition is_vao_call (e : Event) : bool :=
  match e with
  | GL (gl.createVertexArray _) | GL (gl.bindVertexArray _)
  | GL (gl.deleteVertexArray _) => true
  | _ => false
  end.

Definition is_instancing_call (e : Event) : bool :=
  match e with
  | GL (gl.vertexAttribDivisor _ _) | GL (gl.drawElementsInstanced _ _ _ _ _)
  | GL (gl.drawArraysInstanced _ _ _ _) => true
  | _ => false
  end.

(** A call the capabilities [c] allow. *)
Definition permitted (c : Caps) (e : Event) : bool :=
  (negb (is_vao_call e) || _useVao c) &&
  (negb (is_instancing_call e) || canUseInstancedArrays c).

Definition is_disable (e : Event) : bool :=
  match e with GL (gl.disableVertexAttribArray _) => true | _ => false end.

Definition is_element_unbind (e : Event) : bool :=
  match e with GL (gl.bindBuffer gl.ELEMENT_ARRAY_BUFFER None) => true | _ => false end.

(** For each [vertexAttribPointer] of [t], its location and the buffer
    bound to [ARRAY_BUFFER] when it is made, [bound] being bound at the
    start. *)
Fixpoint pointer_buffers (t : Trace) (bound : option WebGLBuffer)
    : list (Z * option WebGLBuffer) :=
  match t with
  | [] => []
  | GL (gl.bindBuffer gl.ARRAY_BUFFER b) :: r => pointer_buffers r b
  | GL (gl.vertexAttribPointer loc _ _ _ _ _) :: r => (loc, bound) :: pointer_buffers r bound
  | _ :: r => pointer_buffers r bound
  end.

(** The number of calls of [t] that bind to [ARRAY_BUFFER] the buffer
    that is bound to it already. *)
Fixpoint redundant_binds (t : Trace) (bound : option WebGLBuffer) : nat :=
  match t with
  | [] => 0%nat
  | GL (gl.bindBuffer gl.ARRAY_BUFFER (Some v)) :: r =>
      ((if bool_decide (bound = Some v) then 1 else 0) + redundant_binds r (Some v))%nat
  | GL (gl.bindBuffer gl.ARRAY_BUFFER None) :: r => redundant_binds r None
  | _ :: r => redundant_binds r bound
  end.

(** The location and vertex buffer of each attribute
    [bindBufferAndAttrib] gets to configure: those with a location other
    than [-1] and a vertex element, up to the first attribute at which
    it throws (a vertex buffer binding that does not exist, or a name
    found in [Object.prototype] only). *)
Fixpoint expected_pointers (p : Primitive.t) (attrs : list (string * Z))
    : list (Z * option WebGLBuffer) :=
  match attrs with
  | [] => []
  | (name, loc) :: rest =>
      if loc =? -1 then expected_pointers p rest
      else
        match object_get (Primitive._vertexElementMap p) name with
        | Undefined => expected_pointers p rest
        | Inherited => []
        | Own el =>
            match array_get (Primitive.vertexBufferBindings p)
                            (VertexElement.bindingIndex el) with
            | None => []
            | Some b => (loc, Some (vbo_of b)) :: expected_pointers p rest
            end
        end
  end.

(** The calls of [t], other than [bindVertexArray], made while the
    vertex array [v] is bound, [cur] being bound at the start. *)
Fixpoint while_bound (v : WebGLVertexArrayObject) (t : Trace)
    (cur : option WebGLVertexArrayObject) : Trace :=
  match t with
  | [] => []
  | GL (gl.bindVertexArray w) :: r => while_bound v r w
  | e :: r =>
      if bool_decide (cur = Some v) then e :: while_bound v r cur
      else while_bound v r cur
  end.

(** The vertex array objects created by the calls of a sequence that
    returned. *)
Definition registered (rs : list (DrawCall * (Outcome unit * State * Trace)))
    : list WebGLVertexArrayObject :=
  flat_map (fun x => match outcome x.2 with
                     | Returned _ => created (emitted x.2)
                     | Thrown _ => []
                     end) rs.

(** What a draw with a cached vertex array object reads of the
    primitive: [instanceCount], [_glIndexType] and whether there is an
    index buffer binding. *)
Definition same_draw_inputs (p p' : Primitive.t) : Prop :=
  Primitive.instanceCount p = Primitive.instanceCount p' /\
  Primitive._glIndexType p = Primitive._glIndexType p' /\
  (is_Some (Primitive.indexBufferBinding p) <->
   is_Some (Primitive.indexBufferBinding p')).

(** The calls the attribute loop of [bindBufferAndAttrib] can make. *)
Definition loop_event (e : Event) : bool :=
  match e with
  | GL (gl.bindBuffer gl.ARRAY_BUFFER (Some _)) | GL (gl.enableVertexAttribArray _)
  | GL (gl.vertexAttribPointer _ _ _ _ _ _) | GL (gl.vertexAttribDivisor _ _)
  | Log (Logger.warn _) => true
  | _ => false
  end.

Definition is_bind_vertex_array (e : Event) : bool :=
  match e with GL (gl.bindVertexArray _) => true | _ => false end.

(** The warnings [bindBufferAndAttrib] gets to log: one for each
    attribute with a location other than [-1] whose name gives
    [undefined] in [_vertexElementMap], up to the first attribute at
    which it throws. *)
Fixpoint expected_warnings (p : Primitive.t) (attrs : list (string * Z)) : list string :=
  match attrs with
  | [] => []
  | (name, loc) :: rest =>
      if loc =? -1 then expected_warnings p rest
      else
        match object_get (Primitive._vertexElementMap p) name with
        | Undefined => not_found (name, loc) :: expected_warnings p rest
        | Inherited => []
        | Own el =>
            match array_get (Primitive.vertexBufferBindings p)
                            (VertexElement.bindingIndex el) with
            | None => []
            | Some _ => expected_warnings p rest
            end
        end
  end.

(** A primitive with the draw inputs of [Sample.indexed_triangle] and
    everything else different: another index buffer, other vertex
    buffers, no vertex elements. *)
Definition regenerated_triangle : Primitive.t :=
  Primitive.mk [Some (VertexBufferBinding.mk (Buffer.mk 21%nat) 32);
                Some (VertexBufferBinding.mk (Buffer.mk 22%nat) 8)]
    (Some (IndexBufferBinding.mk (Buffer.mk 23%nat))) 0 5123 ∅.

(** Three instances of [Sample.indexed_triangle]. *)
Definition instanced_indexed_triangle : Primitive.t :=
  Primitive.mk [Some (VertexBufferBinding.mk (Buffer.mk 7%nat) 24)]
    (Some (IndexBufferBinding.mk (Buffer.mk 9%nat))) 3 5123
    (<["POSITION" := Sample.position]> (<["NORMAL" := Sample.normal_at 0]> ∅)).

(** A primitive whose only vertex buffer was set at index 1
    ([setVertexBufferBinding(binding, 1)] on an empty array): slot 0 is
    empty, and [POSITION] refers to it. *)
Definition sparse_triangle : Primitive.t :=
  Primitive.mk [None; Some (VertexBufferBinding.mk (Buffer.mk 7%nat) 24)] None 0 5123
    (<["POSITION" := Sample.position]> (<["NORMAL" := Sample.normal_at 1]> ∅)).

(** [Sample.lit] with the attributes in another order: [NORMAL] first. *)
Definition lit_normal_first : ShaderProgram.t :=
  ShaderProgram.mk 1 [("NORMAL", 1); ("TEXCOORD_0", 2); ("POSITION", 0)].

(** A program with an attribute named like a member of
    [Object.prototype]. *)
Definition with_constructor : ShaderProgram.t :=
  ShaderProgram.mk 3 [("POSITION", 0); ("constructor", 1); ("NORMAL", 2)].

(** * Properties *)

(** ** Running computations *)

Section MonadFacts.
Context {S E : Type}.
Implicit Types s : S.

Lemma bind_returned {A B} (m : M S E A) (f : A -> M S E B) s a s1 t1 :
  m s = (Returned a, s1, t1) ->
  bind m f s = (outcome (f a s1), final (f a s1), t1 ++ emitted (f a s1)).
Proof. intros Hm. unfold bind. by rewrite Hm. Qed.

Lemma bind_returned_eq {A B} (m : M S E A) (f : A -> M S E B) s a s1 t1 o s2 t2 :
  m s = (Returned a, s1, t1) -> f a s1 = (o, s2, t2) ->
  bind m f s = (o, s2, t1 ++ t2).
Proof. intros Hm Hf. rewrite (bind_returned _ _ _ _ _ _ Hm), Hf. done. Qed.
End MonadFacts.

(** ** The attribute loop, as a derivation *)

Section LoopSpec.
Variable c : Caps.
Variable p : Primitive.t.

Lemma with_attribLocArray_id s l :
  attribLocArray s = Some l -> with_attribLocArray l s = s.
Proof. destruct s; simpl; intros ->; reflexivity. Qed.

Lemma loop_spec attrs : forall last s l,
  attribLocArray s = Some l ->
  exists o locs t,
    loop_run c p attrs last o locs t /\
    bindBufferAndAttrib_loop c p attrs last s
    = (o, with_attribLocArray (l ++ locs) s, t).
Proof.
  induction attrs as [|[name loc] rest IH]; intros last s l Hl.
  - exists (Returned tt), [], []. split; [constructor|].
    simpl. rewrite app_nil_r, with_attribLocArray_id; done.
  - simpl. destruct (loc =? -1) eqn:Hloc.
    { apply Z.eqb_eq in Hloc as ->.
      destruct (IH last s l Hl) as (o & locs & t & Hrun & Heq).
      exists o, locs, t. split; [by constructor | done]. }
    apply Z.eqb_neq in Hloc.
    destruct (object_get (Primitive._vertexElementMap p) name) as [el| |] eqn:Hel.
    3:{ destruct (IH last s l Hl) as (o & locs & t & Hrun & Heq).
        exists o, locs, (Log (Logger.warn ("vertex attribute not found: " +:+ name)) :: t).
        split; [by constructor|].
        erewrite bind_returned_eq; [|reflexivity|exact Heq]. done. }
    2:{ exists (Thrown TypeError), [], []. split; [by apply run_inherited|].
        unfold throw. rewrite app_nil_r, with_attribLocArray_id; done. }
    destruct (array_get _ _) as [b|] eqn:Hb.
    2:{ exists (Thrown TypeError), [], []. split; [by econstructor|].
        unfold throw. rewrite app_nil_r, with_attribLocArray_id; done. }
    fold (vbo_of b).
    set (s1 := with_attribLocArray (l ++ [loc]) s).
    destruct (IH (Some (vbo_of b)) s1 (l ++ [loc]) eq_refl)
      as (o & locs & t & Hrun & Heq).
    exists o, (loc :: locs), (configure c loc el b last ++ t).
    split; [by econstructor|].
    assert (Hlast : (if negb (bool_decide (last = Some (vbo_of b)))
                     then Some (vbo_of b) else last) = Some (vbo_of b)).
    { case_bool_decide; simpl; congruence. }
    rewrite Hlast.
    unfold bind, when, emit, attribLocArray_push, get_state, set_attribLocArray,
      modify, ret, configure.
    case_bool_decide; destruct (canUseInstancedArrays c); simpl;
      rewrite Hl; simpl; fold s1; rewrite Heq; simpl;
      unfold s1, with_attribLocArray; simpl; rewrite <- app_assoc; reflexivity.
Qed.
End LoopSpec.

(** ** The methods, call by call *)

Lemma draw_stages c p sp sub :
  draw c p sp sub = (draw_bind c p sp ;; draw_issue c p sub ;; draw_unbind c).
Proof. reflexivity. Qed.

Lemma draw_issue_spec c p sub s :
  draw_issue c p sub s = (Returned tt, s, issued c p sub).
Proof.
  unfold issued, draw_issue.
  destruct (negb _), (canUseInstancedArrays c), (Primitive.indexBufferBinding p),
    (_useVao c); reflexivity.
Qed.

Lemma disableAttrib_loop_spec locs s :
  disableAttrib_loop locs s = (Returned tt, s, disable_events locs).
Proof.
  induction locs as [|loc locs IH]; [done|]. simpl.
  erewrite bind_returned_eq; [|reflexivity|exact IH]. done.
Qed.

Lemma disableAttrib_spec s l :
  attribLocArray s = Some l ->
  disableAttrib s = (Returned tt, s, disable_events l).
Proof.
  intros Hl. unfold disableAttrib, bind, get_state. simpl. rewrite Hl.
  rewrite disableAttrib_loop_spec. done.
Qed.

Lemma bindBufferAndAttrib_spec c p sp s :
  exists o locs t,
    loop_run c p (ShaderProgram.attributeLocation sp) None o locs t /\
    bindBufferAndAttrib c p sp s
    = (o, with_attribLocArray locs s,
       t ++ match o with
            | Returned _ => [GL (gl.bindBuffer gl.ARRAY_BUFFER None)]
            | Thrown _ => []
            end).
Proof.
  destruct (loop_spec c p (ShaderProgram.attributeLocation sp) None
              (with_attribLocArray [] s) [] eq_refl) as (o & locs & t & Hrun & Heq).
  exists o, locs, t. split; [done|].
  unfold bindBufferAndAttrib, bind, set_attribLocArray, modify, emit. simpl.
  rewrite Heq. destruct o as [[]|e]; simpl; rewrite ?app_nil_r; reflexivity.
Qed.

Lemma registerVAO_spec c p sp s :
  let v := gl_created s in
  exists o locs t,
    loop_run c p (ShaderProgram.attributeLocation sp) None o locs t /\
    registerVAO c p sp s
    = match o with
      | Returned _ =>
          (Returned tt,
           with_vao_set (ShaderProgram.id sp) v (with_attribLocArray locs (with_created s)),
           register_open p v ++ t ++ register_close locs)
      | Thrown e =>
          (Thrown e, with_attribLocArray locs (with_created s), register_open p v ++ t)
      end.
Proof.
  intros v.
  destruct (bindBufferAndAttrib_spec c p sp (with_created s))
    as (o & locs & t & Hrun & Heq).
  exists o, locs, t. split; [done|].
  unfold registerVAO, gl_createVertexArray, register_open, register_close, element_bind.
  unfold bind at 1 2 3 4 5 6 7. unfold get_state, modify, emit, ret. cbn -[bind].
  fold v.
  destruct (Primitive.indexBufferBinding p) as [ibb|]; cbn -[bind];
    unfold bind at 1; rewrite Heq;
    destruct o as [[]|e]; cbn -[disableAttrib];
    rewrite ?app_nil_r; try reflexivity;
    unfold bind; cbn -[disableAttrib];
    rewrite (disableAttrib_spec (with_attribLocArray locs (with_created s)) locs eq_refl);
    cbn; rewrite ?app_nil_r, <- ?app_assoc; reflexivity.
Qed.

(** ** The cache map *)

Lemma JSMap_get_set_eq {V} k (v : V) m : JSMap.get k (JSMap.set k v m) = Some v.
Proof.
  induction m as [|[k' v'] m IH]; simpl.
  - by rewrite Z.eqb_refl.
  - destruct (k' =? k) eqn:Hk; simpl; rewrite Hk; done.
Qed.

Lemma JSMap_set_absent {V} k (v : V) m :
  JSMap.get k m = None -> JSMap.set k v m = m ++ [(k, v)].
Proof.
  induction m as [|[k0 v0] m IH]; simpl; [done|].
  destruct (k0 =? k); [done|]. intros H. by rewrite IH.
Qed.

(** ** [draw], case by case *)

Lemma draw_vao_cached c p sp sub s v :
  _useVao c = true ->
  JSMap.get (ShaderProgram.id sp) (vao s) = Some v ->
  draw c p sp sub s
  = (Returned tt, s,
     [GL (gl.bindVertexArray (Some v))] ++ issued c p sub ++ [GL (gl.bindVertexArray None)]).
Proof.
  intros Hvao Hget. rewrite draw_stages. unfold draw_bind, draw_unbind.
  rewrite Hvao. unfold bind, get_state, when, JSMap.has, emit, ret.
  cbn -[draw_issue]. rewrite Hget. cbn -[draw_issue].
  rewrite Hget, draw_issue_spec. reflexivity.
Qed.

Lemma draw_vao_fresh c p sp sub s :
  _useVao c = true ->
  JSMap.get (ShaderProgram.id sp) (vao s) = None ->
  let v := gl_created s in
  exists o locs t,
    loop_run c p (ShaderProgram.attributeLocation sp) None o locs t /\
    draw c p sp sub s
    = match o with
      | Returned _ =>
          (Returned tt,
           with_vao_set (ShaderProgram.id sp) v (with_attribLocArray locs (with_created s)),
           (register_open p v ++ t ++ register_close locs) ++
           [GL (gl.bindVertexArray (Some v))] ++ issued c p sub ++
           [GL (gl.bindVertexArray None)])
      | Thrown e =>
          (Thrown e, with_attribLocArray locs (with_created s), register_open p v ++ t)
      end.
Proof.
  intros Hvao Hget v.
  destruct (registerVAO_spec c p sp s) as (o & locs & t & Hrun & Heq).
  exists o, locs, t. split; [done|].
  rewrite draw_stages. unfold draw_bind, draw_unbind.
  rewrite Hvao. unfold bind, get_state, when, JSMap.has, emit, ret.
  cbn -[draw_issue registerVAO]. rewrite Hget. cbn -[draw_issue registerVAO].
  rewrite Heq. fold v. destruct o as [[]|e]; cbn -[draw_issue]; [|by rewrite ?app_nil_r].
  rewrite JSMap_get_set_eq, draw_issue_spec. cbn.
  rewrite ?app_nil_r, <- ?app_assoc. reflexivity.
Qed.

Lemma draw_novao c p sp sub s :
  _useVao c = false ->
  exists o locs t,
    loop_run c p (ShaderProgram.attributeLocation sp) None o locs t /\
    bindBufferAndAttrib c p sp s
    = (o, with_attribLocArray locs s,
       t ++ match o with
            | Returned _ => [GL (gl.bindBuffer gl.ARRAY_BUFFER None)]
            | Thrown _ => []
            end) /\
    draw c p sp sub s
    = match o with
      | Returned _ =>
          (Returned tt, with_attribLocArray locs s,
           (t ++ [GL (gl.bindBuffer gl.ARRAY_BUFFER None)]) ++ issued c p sub ++
           disable_events locs)
      | Thrown e => (Thrown e, with_attribLocArray locs s, t)
      end.
Proof.
  intros Hvao.
  destruct (bindBufferAndAttrib_spec c p sp s) as (o & locs & t & Hrun & Heq).
  exists o, locs, t. split; [done|]. split; [done|].
  rewrite draw_stages. unfold draw_bind, draw_unbind. rewrite Hvao.
  unfold bind. rewrite Heq.
  destruct o as [[]|e]; cbn -[draw_issue disableAttrib]; [|by rewrite ?app_nil_r].
  rewrite draw_issue_spec. cbn -[disableAttrib].
  rewrite (disableAttrib_spec (with_attribLocArray locs s) locs eq_refl).
  reflexivity.
Qed.

(** ** Reading traces piecewise *)

Lemma draw_calls_app t1 t2 : draw_calls (t1 ++ t2) = draw_calls t1 ++ draw_calls t2.
Proof. apply List.filter_app. Qed.

Lemma created_app t1 t2 : created (t1 ++ t2) = created t1 ++ created t2.
Proof.
  induction t1 as [|[[]|] t1 IH]; simpl; rewrite ?IH; reflexivity.
Qed.

Lemma enabled_locs_app t1 t2 :
  enabled_locs (t1 ++ t2) = enabled_locs t1 ++ enabled_locs t2.
Proof.
  induction t1 as [|[[]|] t1 IH]; simpl; rewrite ?IH; reflexivity.
Qed.

Lemma warnings_app t1 t2 : warnings (t1 ++ t2) = warnings t1 ++ warnings t2.
Proof.
  induction t1 as [|[|[]] t1 IH]; simpl; rewrite ?IH; reflexivity.
Qed.

Lemma errors_app t1 t2 : errors (t1 ++ t2) = errors t1 ++ errors t2.
Proof.
  induction t1 as [|[|[]] t1 IH]; simpl; rewrite ?IH; reflexivity.
Qed.

Lemma bound_after_app tgt t1 t2 b :
  bound_after tgt (t1 ++ t2) b = bound_after tgt t2 (bound_after tgt t1 b).
Proof.
  revert b. induction t1 as [|[[]|] t1 IH]; intros b; simpl; rewrite ?IH; reflexivity.
Qed.

Lemma attrib_enabled_after_app loc t1 t2 b :
  attrib_enabled_after loc (t1 ++ t2) b
  = attrib_enabled_after loc t2 (attrib_enabled_after loc t1 b).
Proof.
  revert b. induction t1 as [|[[]|] t1 IH]; intros b; simpl; rewrite ?IH; reflexivity.
Qed.

Lemma vertex_array_after_app t1 t2 b :
  vertex_array_after (t1 ++ t2) b = vertex_array_after t2 (vertex_array_after t1 b).
Proof.
  revert b. induction t1 as [|[[]|] t1 IH]; intros b; simpl; rewrite ?IH; reflexivity.
Qed.

Create Rewrite HintDb trace.
#[local] Hint Rewrite draw_calls_app created_app enabled_locs_app warnings_app
  errors_app bound_after_app attrib_enabled_after_app vertex_array_after_app
  @app_nil_r @app_nil_l : trace.

Lemma disable_events_draw_calls locs : draw_calls (disable_events locs) = [].
Proof. induction locs; simpl; auto. Qed.

Lemma disable_events_created locs : created (disable_events locs) = [].
Proof. induction locs; simpl; auto. Qed.

Lemma disable_events_enabled locs : enabled_locs (disable_events locs) = [].
Proof. induction locs; simpl; auto. Qed.

Lemma disable_events_errors locs : errors (disable_events locs) = [].
Proof. induction locs; simpl; auto. Qed.

Lemma disable_events_warnings locs : warnings (disable_events locs) = [].
Proof. induction locs; simpl; auto. Qed.

Lemma disable_events_bound tgt locs b : bound_after tgt (disable_events locs) b = b.
Proof. induction locs; simpl; auto. Qed.

#[local] Hint Rewrite disable_events_draw_calls disable_events_created
  disable_events_enabled disable_events_errors disable_events_warnings
  disable_events_bound : trace.

Section ConfigureFacts.
Variables (c : Caps) (loc : Z) (el : VertexElement.t)
  (b : VertexBufferBinding.t) (last : option WebGLBuffer).

Lemma configure_draw_calls : draw_calls (configure c loc el b last) = [].
Proof.
  unfold configure. case_bool_decide; destruct (canUseInstancedArrays c); reflexivity.
Qed.

Lemma configure_created : created (configure c loc el b last) = [].
Proof.
  unfold configure. case_bool_decide; destruct (canUseInstancedArrays c); reflexivity.
Qed.

Lemma configure_enabled : enabled_locs (configure c loc el b last) = [loc].
Proof.
  unfold configure. case_bool_decide; destruct (canUseInstancedArrays c); reflexivity.
Qed.

Lemma configure_errors : errors (configure c loc el b last) = [].
Proof.
  unfold configure. case_bool_decide; destruct (canUseInstancedArrays c); reflexivity.
Qed.

Lemma configure_warnings : warnings (configure c loc el b last) = [].
Proof.
  unfold configure. case_bool_decide; destruct (canUseInstancedArrays c); reflexivity.
Qed.
End ConfigureFacts.

#[local] Hint Rewrite configure_draw_calls configure_created configure_enabled
  configure_errors configure_warnings : trace.

Section LoopFacts.
Variables (c : Caps) (p : Primitive.t).

Lemma loop_run_draw_calls attrs last o locs t :
  loop_run c p attrs last o locs t -> draw_calls t = [].
Proof. induction 1; simpl; autorewrite with trace; auto. Qed.

Lemma loop_run_created attrs last o locs t :
  loop_run c p attrs last o locs t -> created t = [].
Proof. induction 1; simpl; autorewrite with trace; auto. Qed.

Lemma loop_run_errors attrs last o locs t :
  loop_run c p attrs last o locs t -> errors t = [].
Proof. induction 1; simpl; autorewrite with trace; auto. Qed.

(** The locations pushed are the locations enabled, in order. *)
Lemma loop_run_enabled attrs last o locs t :
  loop_run c p attrs last o locs t -> enabled_locs t = locs.
Proof.
  induction 1; simpl; autorewrite with trace; simpl; auto. by f_equal.
Qed.
End LoopFacts.

(** Splitting a call of [draw] into its cases: the vertex array object is
    cached, it is registered by this call (which returns or throws), or
    there are no vertex array objects (returns or throws). *)
Ltac draw_cases c p sp sub s :=
  let Hvao := fresh "Hvao" in
  let Hget := fresh "Hget" in
  let o := fresh "o" in
  destruct (_useVao c) eqn:Hvao;
  [ destruct (JSMap.get (ShaderProgram.id sp) (vao s)) as [?v|] eqn:Hget;
    [ rewrite (draw_vao_cached c p sp sub s _ Hvao Hget)
    | destruct (draw_vao_fresh c p sp sub s Hvao Hget)
        as (o & ?locs & ?t & ?Hrun & ->); destruct o as [[]|?e] ]
  | destruct (draw_novao c p sp sub s Hvao)
      as (o & ?locs & ?t & ?Hrun & ?Hbind & ->); destruct o as [[]|?e] ].

(** ** C1: which draw call is issued *)

Lemma issued_draw_calls c p sub :
  draw_calls (issued c p sub)
  = if instancing_unsupported c p then [] else [GL (selected_draw p sub)].
Proof.
  unfold issued, draw_issue, selected_draw, instancing_unsupported.
  destruct (truthy _), (canUseInstancedArrays c), (Primitive.indexBufferBinding p),
    (_useVao c); reflexivity.
Qed.

Lemma register_open_draw_calls p v : draw_calls (register_open p v) = [].
Proof. unfold register_open, element_bind. by destruct (Primitive.indexBufferBinding p). Qed.

Lemma register_close_draw_calls locs : draw_calls (register_close locs) = [].
Proof. unfold register_close. simpl. apply disable_events_draw_calls. Qed.

#[local] Hint Rewrite register_open_draw_calls register_close_draw_calls : trace.

(** The draw calls of a call of [draw] are those of its second block if
    it gets that far, and none otherwise. *)
Lemma draw_draw_calls c p sp sub s :
  draw_calls (emitted (draw c p sp sub s))
  = match outcome (draw c p sp sub s) with
    | Returned _ => draw_calls (issued c p sub)
    | Thrown _ => []
    end.
Proof.
  draw_cases c p sp sub s; unfold emitted, outcome; cbn [fst snd];
    autorewrite with trace;
    rewrite ?(loop_run_draw_calls _ _ _ _ _ _ _ Hrun); cbn;
    autorewrite with trace; reflexivity.
Qed.

(** C1.  In every call of [draw] that issues a GL draw call, exactly one
    is issued, and it is the one selected by [instanceCount] and
    [indexBufferBinding]: [drawElements] or [drawArrays] when
    [instanceCount] is falsy, [drawElementsInstanced] or
    [drawArraysInstanced] when it is truthy, which then needs instanced
    arrays to be supported.  A call that returns outside the
    unsupported-instancing branch does issue one. *)
Theorem draw_issues_selected_call c p sp sub s :
  let r := draw c p sp sub s in
  (draw_calls (emitted r) <> [] ->
   draw_calls (emitted r) = [GL (selected_draw p sub)] /\
   (truthy (Primitive.instanceCount p) = true -> canUseInstancedArrays c = true)) /\
  (outcome r = Returned tt -> instancing_unsupported c p = false ->
   draw_calls (emitted r) <> []).
Proof.
  intros r. subst r. rewrite draw_draw_calls, issued_draw_calls.
  unfold instancing_unsupported.
  destruct (outcome _) as [[]|e]; split; try done.
  - destruct (truthy _), (canUseInstancedArrays c); simpl; done.
  - intros _ ->. done.
Qed.

(** A witness of C1: an indexed, non-instanced draw without vertex array
    objects issues [drawElements]. *)
Lemma draw_issues_selected_call_witness :
  draw_calls (emitted (draw Sample.instanced_only Sample.indexed_triangle Sample.lit
                         Sample.triangles Sample.fresh))
  = [GL (gl.drawElements 4 3 5123 0)] /\
  draw_calls (emitted (draw Sample.instanced_only Sample.indexed_triangle Sample.lit
                         Sample.triangles Sample.fresh)) <> [].
Proof.
  pose proof (draw_issues_selected_call Sample.instanced_only Sample.indexed_triangle
                Sample.lit Sample.triangles Sample.fresh) as [H1 H2].
  split.
  - apply H1. vm_compute. discriminate.
  - apply H2; vm_compute; reflexivity.
Defined.

(** ** [draw] block by block *)

Lemma draw_by_stages c p sp sub s :
  let b := draw_bind c p sp s in
  draw c p sp sub s
  = match outcome b with
    | Returned _ =>
        let u := draw_unbind c (final b) in
        (outcome u, final u, emitted b ++ issued c p sub ++ emitted u)
    | Thrown e => (Thrown e, final b, emitted b)
    end.
Proof.
  intros b. rewrite draw_stages. unfold bind. fold b.
  destruct b as [[[[]|e] s1] t1]; cbn -[draw_issue draw_unbind]; [|done].
  rewrite draw_issue_spec. reflexivity.
Qed.

Lemma draw_bind_cached c p sp s v :
  _useVao c = true ->
  JSMap.get (ShaderProgram.id sp) (vao s) = Some v ->
  draw_bind c p sp s = (Returned tt, s, [GL (gl.bindVertexArray (Some v))]).
Proof.
  intros Hvao Hget. unfold draw_bind. rewrite Hvao.
  unfold bind, get_state, when, JSMap.has, emit, ret. cbn. rewrite Hget. cbn.
  by rewrite Hget.
Qed.

Lemma draw_bind_fresh c p sp s :
  _useVao c = true ->
  JSMap.get (ShaderProgram.id sp) (vao s) = None ->
  let reg := registerVAO c p sp s in
  draw_bind c p sp s
  = match outcome reg with
    | Returned _ =>
        (Returned tt, final reg,
         emitted reg ++
         [GL (gl.bindVertexArray (JSMap.get (ShaderProgram.id sp) (vao (final reg))))])
    | Thrown e => (Thrown e, final reg, emitted reg)
    end.
Proof.
  intros Hvao Hget reg. unfold draw_bind. rewrite Hvao.
  unfold bind, get_state, when, JSMap.has, emit, ret. cbn -[registerVAO].
  rewrite Hget. cbn -[registerVAO]. fold reg.
  destruct reg as [[[[]|e] s1] t1]; cbn; by rewrite ?app_nil_r.
Qed.

Lemma draw_bind_novao c p sp s :
  _useVao c = false -> draw_bind c p sp s = bindBufferAndAttrib c p sp s.
Proof. intros Hvao. unfold draw_bind. by rewrite Hvao. Qed.

Lemma register_open_created p v : created (register_open p v) = [v].
Proof. unfold register_open, element_bind. by destruct (Primitive.indexBufferBinding p). Qed.

Lemma register_close_created locs : created (register_close locs) = [].
Proof. unfold register_close. cbn. apply disable_events_created. Qed.

#[local] Hint Rewrite register_open_created register_close_created : trace.

(** What [registerVAO] leaves: one object created; registered under the
    id if it returns, the cache as it was if it throws. *)
Lemma registerVAO_effect c p sp s :
  let reg := registerVAO c p sp s in
  created (emitted reg) = [gl_created s] /\
  match outcome reg with
  | Returned _ =>
      vao (final reg) = JSMap.set (ShaderProgram.id sp) (gl_created s) (vao s)
  | Thrown _ => vao (final reg) = vao s
  end.
Proof.
  intros reg. subst reg.
  destruct (registerVAO_spec c p sp s) as (o & locs & t & Hrun & ->).
  pose proof (loop_run_created _ _ _ _ _ _ _ Hrun) as Hc.
  destruct o as [[]|e]; unfold emitted, outcome, final; cbn [fst snd];
    autorewrite with trace; rewrite Hc; done.
Qed.

Lemma issued_vao_no_attrib_spec c p sub :
  _useVao c = true -> List.filter is_attrib_spec (issued c p sub) = [].
Proof.
  intros Hvao. unfold issued, draw_issue. rewrite Hvao.
  destruct (negb _), (canUseInstancedArrays c), (Primitive.indexBufferBinding p);
    reflexivity.
Qed.

(** ** C2: cached vertex array object, or direct specification *)

(** C2 as stated fails on the first draw of a primitive one of
    whose vertex elements refers to a vertex buffer binding that does not
    exist: [registerVAO] throws before [this.vao.set], so a vertex array
    object is created but none is registered, and [draw] binds none from
    the cache. *)
Lemma draw_first_use_not_registered :
  _useVao Sample.vao_instanced = true /\
  ~ binds_cached_vao Sample.vao_instanced
      (mkDrawCall Sample.unbound_normals Sample.lit Sample.triangles) Sample.fresh.
Proof.
  split; [reflexivity|]. intros (v & Hget & _). vm_compute in Hget. discriminate.
Qed.

(** C2, amended.  With vertex array objects, a call of [draw] for an id
    the cache holds binds the cached object, issues the draw and unbinds,
    with no call that specifies buffers or attributes and no change of
    state.  For an id the cache does not hold it runs [registerVAO],
    which creates one object; if that returns, the object is registered
    under the id and [draw] binds it, issues the draw and unbinds; if it
    throws, [draw] throws there and the cache is as before.  Without
    vertex array objects every call starts by running
    [bindBufferAndAttrib]. *)
Theorem draw_binds_cached_or_specifies c p sp sub s :
  let r := draw c p sp sub s in
  let id := ShaderProgram.id sp in
  (_useVao c = true ->
   (forall v, JSMap.get id (vao s) = Some v ->
      r = (Returned tt, s,
           [GL (gl.bindVertexArray (Some v))] ++ issued c p sub ++
           [GL (gl.bindVertexArray None)]) /\
      List.filter is_attrib_spec (emitted r) = []) /\
   (JSMap.get id (vao s) = None ->
      let reg := registerVAO c p sp s in
      let v := gl_created s in
      created (emitted reg) = [v] /\
      match outcome reg with
      | Returned _ =>
          JSMap.get id (vao (final reg)) = Some v /\
          r = (Returned tt, final reg,
               emitted reg ++ [GL (gl.bindVertexArray (Some v))] ++ issued c p sub ++
               [GL (gl.bindVertexArray None)]) /\
          List.filter is_attrib_spec
            ([GL (gl.bindVertexArray (Some v))] ++ issued c p sub ++
             [GL (gl.bindVertexArray None)]) = []
      | Thrown e =>
          r = (Thrown e, final reg, emitted reg) /\ vao (final reg) = vao s
      end)) /\
  (_useVao c = false ->
   let b := bindBufferAndAttrib c p sp s in
   match outcome b with
   | Returned _ => exists rest, emitted r = emitted b ++ rest
   | Thrown e => r = (Thrown e, final b, emitted b)
   end).
Proof.
  intros r id. subst r. split.
  - intros Hvao. split.
    + intros v Hget. rewrite (draw_vao_cached c p sp sub s v Hvao Hget).
      split; [done|]. unfold emitted. cbn [snd].
      rewrite !List.filter_app, issued_vao_no_attrib_spec by done. reflexivity.
    + intros Hget reg v.
      pose proof (registerVAO_effect c p sp s) as [Hcreated Hreg].
      split; [done|].
      rewrite draw_by_stages. cbv zeta.
      rewrite (draw_bind_fresh c p sp s Hvao Hget). cbv zeta.
      fold reg in Hreg |- *. fold v in Hreg.
      destruct (outcome reg) as [[]|e] eqn:Ho.
      * assert (Hv : JSMap.get id (vao (final reg)) = Some v).
        { rewrite Hreg. apply JSMap_get_set_eq. }
        fold id. rewrite Hv. unfold draw_unbind. rewrite Hvao.
        unfold outcome, final, emitted, emit. cbn [fst snd].
        split; [done|]. split.
        -- by rewrite <- !app_assoc.
        -- rewrite !List.filter_app, issued_vao_no_attrib_spec by done. reflexivity.
      * done.
  - intros Hvao b. rewrite draw_by_stages. cbv zeta.
    rewrite (draw_bind_novao c p sp s Hvao). fold b.
    destruct (outcome b) as [[]|e]; [|done].
    unfold emitted at 1. cbn [snd]. by eexists.
Qed.

(** A witness of C2, amended: the first draw with a program's id
    registers the object the context created, and the second finds it. *)
Lemma draw_binds_cached_or_specifies_witness :
  let first := draw Sample.vao_instanced Sample.triangle Sample.lit Sample.triangles
                 Sample.fresh in
  JSMap.get 1 (vao (final first)) = Some 0%nat /\
  List.filter is_attrib_spec
    (emitted (draw Sample.vao_instanced Sample.triangle Sample.lit Sample.triangles
                (final first))) = [].
Proof.
  intros first.
  pose proof (draw_binds_cached_or_specifies Sample.vao_instanced Sample.triangle
                Sample.lit Sample.triangles Sample.fresh) as [Hv _].
  pose proof (draw_binds_cached_or_specifies Sample.vao_instanced Sample.triangle
                Sample.lit Sample.triangles (final first)) as [Hv' _].
  split.
  - destruct (Hv eq_refl) as [_ Hfresh].
    destruct (Hfresh eq_refl) as [_ Hreg]. vm_compute in Hreg.
    destruct Hreg as [Hreg _]. vm_compute. exact Hreg.
  - destruct (Hv' eq_refl) as [Hcached _].
    destruct (Hcached 0%nat) as [_ Hspec]; [vm_compute; reflexivity|exact Hspec].
Defined.

(** ** C3: the built-in shaders *)

(** C3.  [ShaderPool.init] calls [Shader.create] six times and returns:
    for "blinn-phong", "pbr", "shadow-map", "shadow", "skybox" and
    "particle-shader", in this order, whatever the state it starts from;
    "shadow" pairs the shadow-map vertex shader with the shadow fragment
    shader. *)
Theorem init_creates_builtin_shaders s :
  let r := ShaderPool.init s in
  outcome r = Returned tt /\
  emitted r
  = [Shader.mk "blinn-phong" Shader.blinnPhongVs Shader.blinnPhongFs;
     Shader.mk "pbr" Shader.pbrVs Shader.pbrFs;
     Shader.mk "shadow-map" Shader.shadowMapVs Shader.shadowMapFs;
     Shader.mk "shadow" Shader.shadowMapVs Shader.shadowFs;
     Shader.mk "skybox" Shader.skyboxVs Shader.skyboxFs;
     Shader.mk "particle-shader" Shader.particleVs Shader.particleFs] /\
  map Shader.name (emitted r)
  = ["blinn-phong"; "pbr"; "shadow-map"; "shadow"; "skybox"; "particle-shader"] /\
  List.filter (fun call => String.eqb (Shader.name call) "shadow") (emitted r)
  = [Shader.mk "shadow" Shader.shadowMapVs Shader.shadowFs].
Proof. destruct s. repeat split. Qed.

(** ** C4: instancing without the extension *)

Lemma register_open_errors p v : errors (register_open p v) = [].
Proof. unfold register_open, element_bind. by destruct (Primitive.indexBufferBinding p). Qed.

Lemma register_close_errors locs : errors (register_close locs) = [].
Proof. unfold register_close. cbn. apply disable_events_errors. Qed.

#[local] Hint Rewrite register_open_errors register_close_errors : trace.

Lemma bindBufferAndAttrib_errors c p sp s :
  errors (emitted (bindBufferAndAttrib c p sp s)) = [].
Proof.
  destruct (bindBufferAndAttrib_spec c p sp s) as (o & locs & t & Hrun & ->).
  unfold emitted. cbn [snd]. autorewrite with trace.
  rewrite (loop_run_errors _ _ _ _ _ _ _ Hrun). by destruct o.
Qed.

Lemma registerVAO_errors c p sp s : errors (emitted (registerVAO c p sp s)) = [].
Proof.
  destruct (registerVAO_spec c p sp s) as (o & locs & t & Hrun & ->).
  pose proof (loop_run_errors _ _ _ _ _ _ _ Hrun) as He.
  destruct o; unfold emitted; cbn [snd]; autorewrite with trace; by rewrite He.
Qed.

Lemma draw_bind_errors c p sp s : errors (emitted (draw_bind c p sp s)) = [].
Proof.
  destruct (_useVao c) eqn:Hvao.
  - destruct (JSMap.get (ShaderProgram.id sp) (vao s)) as [v|] eqn:Hget.
    + by rewrite (draw_bind_cached c p sp s v Hvao Hget).
    + rewrite (draw_bind_fresh c p sp s Hvao Hget). cbv zeta.
      pose proof (registerVAO_errors c p sp s) as He.
      destruct (outcome _); unfold emitted at 1; cbn [snd];
        autorewrite with trace; by rewrite He.
  - rewrite (draw_bind_novao c p sp s Hvao). apply bindBufferAndAttrib_errors.
Qed.

(** Once the first block of [draw] has returned, the last one returns
    too, leaves the state alone and only unbinds. *)
Lemma draw_unbind_after_bind c p sp s :
  let b := draw_bind c p sp s in
  outcome b = Returned tt ->
  exists u,
    draw_unbind c (final b) = (Returned tt, final b, u) /\
    errors u = [] /\ draw_calls u = [].
Proof.
  intros b Hb. unfold draw_unbind. destruct (_useVao c) eqn:Hvao.
  - by eexists.
  - subst b. rewrite (draw_bind_novao c p sp s Hvao) in *.
    destruct (bindBufferAndAttrib_spec c p sp s) as (o & locs & t & Hrun & Heq).
    rewrite Heq. unfold final. cbn [fst snd].
    rewrite (disableAttrib_spec (with_attribLocArray locs s) locs eq_refl).
    eexists. split; [reflexivity|]. by autorewrite with trace.
Qed.

Lemma issued_unsupported c p sub :
  truthy (Primitive.instanceCount p) = true ->
  canUseInstancedArrays c = false ->
  issued c p sub
  = [Log (Logger.error "ANGLE_instanced_arrays extension is not supported")].
Proof. intros Hi Hc. unfold issued, draw_issue. by rewrite Hi, Hc. Qed.

(** C4 as stated fails when the first block of [draw] throws:
    without vertex array objects, on a primitive with a vertex element
    whose vertex buffer binding does not exist, the call throws before
    it reaches the instancing branch and nothing is logged. *)
Lemma draw_unsupported_instancing_may_throw :
  truthy (Primitive.instanceCount Sample.instanced_unbound_normals) = true /\
  canUseInstancedArrays Sample.bare = false /\
  ~ unsupported_instancing_only_logged Sample.bare
      (mkDrawCall Sample.instanced_unbound_normals Sample.lit Sample.triangles)
      Sample.fresh.
Proof.
  split; [reflexivity|]. split; [reflexivity|].
  intros (_ & _ & Hret). vm_compute in Hret. discriminate.
Qed.

(** C4, amended.  A call of [draw] with a truthy [instanceCount] and no
    instanced arrays issues no GL draw call.  If its first block returns,
    the call returns, and between the calls of the first block and those
    that unbind it makes a single call: [Logger.error] with the message;
    that is the only error logged.  If the first block throws, the call
    throws there. *)
Theorem draw_unsupported_instancing c p sp sub s :
  truthy (Primitive.instanceCount p) = true ->
  canUseInstancedArrays c = false ->
  let r := draw c p sp sub s in
  let b := draw_bind c p sp s in
  let msg := "ANGLE_instanced_arrays extension is not supported" in
  draw_calls (emitted r) = [] /\
  match outcome b with
  | Returned _ =>
      exists u,
        draw_unbind c (final b) = (Returned tt, final b, u) /\
        r = (Returned tt, final b, emitted b ++ [Log (Logger.error msg)] ++ u) /\
        errors (emitted r) = [msg]
  | Thrown e => r = (Thrown e, final b, emitted b)
  end.
Proof.
  intros Hi Hc r b msg. split.
  - subst r. rewrite draw_draw_calls, issued_draw_calls.
    unfold instancing_unsupported. rewrite Hi, Hc. by destruct (outcome _).
  - pose proof (draw_by_stages c p sp sub s) as Hr. cbv zeta in Hr.
    fold r b in Hr. rewrite (issued_unsupported c p sub Hi Hc) in Hr.
    pose proof (draw_unbind_after_bind c p sp s) as Hu. cbv zeta in Hu. fold b in Hu.
    pose proof (draw_bind_errors c p sp s) as He. fold b in He.
    destruct (outcome b) as [[]|e]; [|done].
    destruct (Hu eq_refl) as (u & Hub & Heu & _). exists u.
    rewrite Hub in Hr. unfold outcome, final, emitted in Hr. cbn [fst snd] in Hr.
    split; [done|]. split; [done|].
    replace (emitted r) with (emitted b ++ [Log (Logger.error msg)] ++ u)
      by (by rewrite Hr).
    rewrite !errors_app, He, Heu. reflexivity.
Qed.

(** A witness of C4, amended: with vertex array objects and a cached
    program the call only binds, logs and unbinds. *)
Lemma draw_unsupported_instancing_witness :
  let s := final (draw Sample.vao_only Sample.instanced_triangle Sample.lit
                    Sample.triangles Sample.fresh) in
  draw Sample.vao_only Sample.instanced_triangle Sample.lit Sample.triangles s
  = (Returned tt, s,
     [GL (gl.bindVertexArray (Some 0%nat));
      Log (Logger.error "ANGLE_instanced_arrays extension is not supported");
      GL (gl.bindVertexArray None)]).
Proof.
  intros s.
  destruct (draw_unsupported_instancing Sample.vao_only Sample.instanced_triangle
              Sample.lit Sample.triangles s eq_refl eq_refl) as [_ H].
  vm_compute in H. destruct H as (u & Hu & Hr & _).
  injection Hu as <-. vm_compute. exact Hr.
Defined.

(** ** What a call of [draw] does to the cache *)

Lemma issued_created c p sub : created (issued c p sub) = [].
Proof.
  unfold issued, draw_issue.
  destruct (negb _), (canUseInstancedArrays c), (Primitive.indexBufferBinding p),
    (_useVao c); reflexivity.
Qed.

#[local] Hint Rewrite issued_created : trace.

Lemma draw_created c p sp sub s :
  created (emitted (draw c p sp sub s))
  = if _useVao c && negb (JSMap.has (ShaderProgram.id sp) (vao s))
    then [gl_created s] else [].
Proof.
  unfold JSMap.has.
  draw_cases c p sp sub s; rewrite ?Hget; unfold emitted; cbn [snd andb negb];
    autorewrite with trace;
    rewrite ?(loop_run_created _ _ _ _ _ _ _ Hrun); reflexivity.
Qed.

(** The cache after a call is the cache before it, with at most the
    entry of this call's program added at the end. *)
Lemma draw_vao_extends c p sp sub s :
  let r := draw c p sp sub s in
  vao (final r) = vao s \/
  (_useVao c = true /\ JSMap.get (ShaderProgram.id sp) (vao s) = None /\
   outcome r = Returned tt /\
   vao (final r) = vao s ++ [(ShaderProgram.id sp, gl_created s)]).
Proof.
  cbv zeta. draw_cases c p sp sub s; unfold final, outcome; cbn [fst snd]; auto.
  right. repeat split; auto. cbn. by apply JSMap_set_absent.
Qed.

Lemma JSMap_get_app_l {V} k (v : V) m ext :
  JSMap.get k m = Some v -> JSMap.get k (m ++ ext) = Some v.
Proof.
  induction m as [|[k0 v0] m IH]; simpl; [done|]. destruct (k0 =? k); auto.
Qed.

Lemma draw_keeps_entries c p sp sub s k v :
  JSMap.get k (vao s) = Some v ->
  JSMap.get k (vao (final (draw c p sp sub s))) = Some v.
Proof.
  intros Hk. destruct (draw_vao_extends c p sp sub s) as [->|(_ & _ & _ & ->)]; [done|].
  by apply JSMap_get_app_l.
Qed.

(** With vertex array objects, a call that returns leaves its program's
    id in the cache. *)
Lemma draw_returned_cached c p sp sub s :
  _useVao c = true ->
  outcome (draw c p sp sub s) = Returned tt ->
  is_Some (JSMap.get (ShaderProgram.id sp) (vao (final (draw c p sp sub s)))).
Proof.
  intros Hc. revert Hc.
  draw_cases c p sp sub s; unfold final, outcome; cbn [fst snd]; try done;
    intros _ _; cbn; rewrite ?JSMap_get_set_eq; by eexists.
Qed.

(** ** [destroy] *)

Lemma destroy_forEach_spec vaos s :
  destroy_forEach vaos s = (Returned tt, s, delete_events vaos).
Proof.
  induction vaos as [|v vaos IH]; [done|]. simpl.
  erewrite bind_returned_eq; [|reflexivity|exact IH]. done.
Qed.

Lemma destroy_spec c s :
  destroy c s
  = (Returned tt, s, if _useVao c then delete_events (JSMap.values (vao s)) else []).
Proof.
  unfold destroy. destruct (_useVao c); [|done].
  unfold bind, get_state. cbn. by rewrite destroy_forEach_spec.
Qed.

(** ** No call of [draw] deletes a vertex array object *)

Lemma loop_run_no_delete c p attrs last o locs t :
  loop_run c p attrs last o locs t -> List.filter is_delete t = [].
Proof.
  induction 1; cbn; rewrite ?List.filter_app, ?IHloop_run; auto.
  unfold configure. case_bool_decide; destruct (canUseInstancedArrays c); done.
Qed.

Lemma disable_events_no_delete locs : List.filter is_delete (disable_events locs) = [].
Proof. induction locs; cbn; auto. Qed.

Lemma issued_no_delete c p sub : List.filter is_delete (issued c p sub) = [].
Proof.
  unfold issued, draw_issue.
  destruct (negb _), (canUseInstancedArrays c), (Primitive.indexBufferBinding p),
    (_useVao c); reflexivity.
Qed.

Lemma draw_no_delete c p sp sub s :
  List.filter is_delete (emitted (draw c p sp sub s)) = [].
Proof.
  draw_cases c p sp sub s; unfold emitted; cbn [snd];
    unfold register_open, register_close, element_bind;
    try destruct (Primitive.indexBufferBinding p);
    rewrite ?List.filter_app, ?issued_no_delete, ?disable_events_no_delete,
      ?(loop_run_no_delete _ _ _ _ _ _ _ Hrun); cbn;
    rewrite ?List.filter_app, ?issued_no_delete, ?disable_events_no_delete,
      ?(loop_run_no_delete _ _ _ _ _ _ _ Hrun); reflexivity.
Qed.

(** ** C7: the cache only grows *)

Lemma draws_final_cons c d rest s :
  draws_final c (d :: rest) s = draws_final c rest (final (draw_call c d s)).
Proof. reflexivity. Qed.

Lemma draws_final_extends c calls : forall s,
  exists ext, vao (draws_final c calls s) = vao s ++ ext.
Proof.
  induction calls as [|d rest IH]; intros s.
  - exists []. by rewrite app_nil_r.
  - rewrite draws_final_cons. destruct (IH (final (draw_call c d s))) as [ext ->].
    unfold draw_call.
    destruct (draw_vao_extends c (primitive d) (shaderProgram d) (subPrimitive d) s)
      as [->|(_ & _ & _ & ->)]; [by eexists|].
    rewrite <- app_assoc. by eexists.
Qed.

Lemma draws_no_delete c calls : forall s,
  Forall (fun x => List.filter is_delete (emitted x.2) = []) (draws c calls s).
Proof.
  induction calls as [|d rest IH]; intros s; cbn; constructor; auto.
  apply draw_no_delete.
Qed.

(** C7.  Over any sequence of calls of [draw], from any state, the cache
    map is only extended at its end: every entry present before is
    present after with the same object, the set of keys does not shrink,
    and no call deletes a vertex array object.  [destroy] deletes the
    objects of the entries on the context and leaves the map as it
    is. *)
Theorem vao_cache_never_evicts c calls s :
  let s' := draws_final c calls s in
  (exists ext, vao s' = vao s ++ ext) /\
  (forall k v, JSMap.get k (vao s) = Some v -> JSMap.get k (vao s') = Some v) /\
  JSMap.keys (vao s) ⊆ JSMap.keys (vao s') /\
  Forall (fun x => List.filter is_delete (emitted x.2) = []) (draws c calls s) /\
  vao (final (destroy c s')) = vao s' /\
  emitted (destroy c s')
  = (if _useVao c then delete_events (JSMap.values (vao s')) else []).
Proof.
  intros s'. destruct (draws_final_extends c calls s) as [ext Hext]. fold s' in Hext.
  split; [by exists ext|]. split.
  { intros k v Hk. rewrite Hext. by apply JSMap_get_app_l. }
  split.
  { rewrite Hext. unfold JSMap.keys. rewrite map_app.
    intros k Hk. apply elem_of_app. by left. }
  split; [apply draws_no_delete|].
  by rewrite destroy_spec.
Qed.

(** ** C5: one vertex array object per program *)

Lemma cached_creates_nothing c calls : forall s id v,
  JSMap.get id (vao s) = Some v ->
  created_for id (draws c calls s) = [].
Proof.
  induction calls as [|d rest IH]; intros s id v Hget; [done|].
  cbn. unfold created_for in IH.
  rewrite (IH _ id v) by (by apply draw_keeps_entries).
  rewrite app_nil_r. unfold created_by, draw_call. cbn [fst snd].
  destruct (_ =? id) eqn:Hid; [|done]. apply Z.eqb_eq in Hid.
  rewrite draw_created, Hid. unfold JSMap.has. rewrite Hget.
  by rewrite andb_false_r.
Qed.

Lemma registered_le_created id rs :
  (length (registered_for id rs) <= length (created_for id rs))%nat.
Proof.
  induction rs as [|x rs IH]; cbn; [done|].
  rewrite !length_app. unfold registered_by at 1.
  fold (registered_for id rs) (created_for id rs).
  destruct (outcome x.2); cbn [length]; lia.
Qed.

Lemma cached_binds_cached c calls : forall s id v,
  _useVao c = true ->
  JSMap.get id (vao s) = Some v ->
  Forall (fun x =>
            ShaderProgram.id (shaderProgram x.1) = id ->
            emitted x.2
            = [GL (gl.bindVertexArray (Some v))] ++
              issued c (primitive x.1) (subPrimitive x.1) ++
              [GL (gl.bindVertexArray None)])
         (draws c calls s).
Proof.
  induction calls as [|d rest IH]; intros s id v Hvao Hget; cbn; constructor.
  - cbn [fst snd]. intros Hid. unfold draw_call.
    rewrite <- Hid in Hget. by rewrite (draw_vao_cached _ _ _ _ _ _ Hvao Hget).
  - apply IH; [done|]. by apply draw_keeps_entries.
Qed.

(** C5 as stated fails when [registerVAO] throws: the primitive
    whose normals refer to a missing vertex buffer binding gets a new
    vertex array object on each of two draws with the same program. *)
Lemma draw_creates_again_after_throw :
  _useVao Sample.vao_instanced = true /\
  ~ creates_once_per_id Sample.vao_instanced
      [mkDrawCall Sample.unbound_normals Sample.lit Sample.triangles;
       mkDrawCall Sample.unbound_normals Sample.lit Sample.triangles]
      Sample.fresh.
Proof.
  split; [reflexivity|]. intros H. specialize (H 1). vm_compute in H. lia.
Qed.

Lemma registered_all_returned id
    (rs : list (DrawCall * (Outcome unit * State * Trace))) :
  Forall (fun x => outcome x.2 = Returned tt) rs ->
  registered_for id rs = created_for id rs.
Proof.
  induction 1 as [|x rs Hx _ IH]; [done|].
  unfold registered_for, created_for in *. cbn [flat_map]. rewrite IH.
  unfold registered_by at 1. destruct x as [d [[o st] t]].
  unfold outcome in *. cbn [fst snd] in *. by subst o.
Qed.

(** C5, amended.  With vertex array objects, over any sequence of calls
    of [draw] from any state: for each program id at most one call that
    returns has run [registerVAO], so that a sequence in which every
    call returns creates at most one vertex array object per id; a call
    that returns leaves its id in the cache; and from a state whose
    cache holds an id, every call with that id binds that same object,
    issues the draw and unbinds, and no call creates an object for that
    id. *)
Theorem vao_registered_once_per_program c :
  _useVao c = true ->
  (forall calls s id, (length (registered_for id (draws c calls s)) <= 1)%nat) /\
  (forall calls s,
     Forall (fun x => outcome x.2 = Returned tt) (draws c calls s) ->
     creates_once_per_id c calls s) /\
  (forall d s,
     outcome (draw_call c d s) = Returned tt ->
     is_Some (JSMap.get (ShaderProgram.id (shaderProgram d))
                (vao (final (draw_call c d s))))) /\
  (forall calls s id v,
     JSMap.get id (vao s) = Some v ->
     created_for id (draws c calls s) = [] /\
     Forall (fun x =>
               ShaderProgram.id (shaderProgram x.1) = id ->
               emitted x.2
               = [GL (gl.bindVertexArray (Some v))] ++
                 issued c (primitive x.1) (subPrimitive x.1) ++
                 [GL (gl.bindVertexArray None)])
            (draws c calls s)).
Proof.
  intros Hvao.
  assert (Hreg : forall calls s id,
             (length (registered_for id (draws c calls s)) <= 1)%nat).
  2:{ split; [exact Hreg|]. split; [|split].
      - intros calls s Hall id. rewrite <- (registered_all_returned id _ Hall).
        apply Hreg.
      - intros d s. by apply draw_returned_cached.
      - intros calls s id v Hget. split.
        + by eapply cached_creates_nothing.
        + by apply cached_binds_cached. }
  induction calls as [|d rest IH]; intros s id; cbn; [lia|].
  rewrite length_app. specialize (IH (final (draw_call c d s)) id).
  change (flat_map (registered_by id) ?l) with (registered_for id l).
  unfold registered_by at 1, created_by. cbn [fst snd].
  destruct (outcome (draw_call c d s)) as [[]|e] eqn:Ho; [|cbn; lia].
  destruct (_ =? id) eqn:Hid; [|cbn; lia].
  apply Z.eqb_eq in Hid.
  destruct (draw_returned_cached c _ _ _ s Hvao Ho) as [v Hv].
  rewrite Hid in Hv.
  pose proof (registered_le_created id (draws c rest (final (draw_call c d s)))) as Hle.
  rewrite (cached_creates_nothing c rest (final (draw_call c d s)) id v Hv) in Hle.
  cbn in Hle.
  unfold draw_call in *. rewrite draw_created.
  destruct (_ && _); cbn [length]; lia.
Qed.

(** A witness of C5, amended: three draws with one program create one
    vertex array object. *)
Lemma vao_registered_once_per_program_witness :
  let calls := [mkDrawCall Sample.triangle Sample.lit Sample.triangles;
                mkDrawCall Sample.indexed_triangle Sample.lit Sample.triangles;
                mkDrawCall Sample.triangle Sample.lit Sample.triangles] in
  (length (registered_for 1 (draws Sample.vao_instanced calls Sample.fresh)) <= 1)%nat /\
  created_for 1 (draws Sample.vao_instanced calls Sample.fresh) = [0%nat].
Proof.
  intros calls.
  destruct (vao_registered_once_per_program Sample.vao_instanced eq_refl) as [H _].
  split; [apply H | reflexivity].
Defined.

(** A witness of C7: an entry registered by a first draw is still there,
    with the same object, after further draws with other programs. *)
Lemma vao_cache_never_evicts_witness :
  let s := final (draw Sample.vao_instanced Sample.triangle Sample.lit
                    Sample.triangles Sample.fresh) in
  let other := ShaderProgram.mk 2 [("POSITION", 0)] in
  JSMap.get 1
    (vao (draws_final Sample.vao_instanced
            [mkDrawCall Sample.indexed_triangle other Sample.triangles;
             mkDrawCall Sample.unbound_normals Sample.lit Sample.triangles] s))
  = Some 0%nat.
Proof.
  intros s other.
  apply (vao_cache_never_evicts Sample.vao_instanced
           [mkDrawCall Sample.indexed_triangle other Sample.triangles;
            mkDrawCall Sample.unbound_normals Sample.lit Sample.triangles] s).
  reflexivity.
Defined.

(** ** C6: the index buffer *)

(** Without vertex array objects an indexed draw is bracketed by the
    binding and the unbinding of the primitive's index buffer. *)
Lemma issued_indexed_novao c p sub ibb :
  _useVao c = false ->
  Primitive.indexBufferBinding p = Some ibb ->
  instancing_unsupported c p = false ->
  issued c p sub
  = [GL (gl.bindBuffer gl.ELEMENT_ARRAY_BUFFER
           (Some (Buffer._nativeBuffer (IndexBufferBinding.buffer ibb))));
     GL (selected_draw p sub);
     GL (gl.bindBuffer gl.ELEMENT_ARRAY_BUFFER None)].
Proof.
  intros Hvao Hibb. unfold instancing_unsupported, issued, draw_issue, selected_draw.
  rewrite Hvao, Hibb.
  destruct (truthy _), (canUseInstancedArrays c); cbn; done.
Qed.

(** [registerVAO] binds the index buffer the primitive has when it runs,
    once. *)
Lemma registerVAO_element_bind c p sp s :
  List.filter is_element_bind (emitted (registerVAO c p sp s)) = element_bind p.
Proof.
  destruct (registerVAO_spec c p sp s) as (o & locs & t & Hrun & ->).
  assert (Ht : List.filter is_element_bind t = []).
  { clear -Hrun. induction Hrun; cbn; rewrite ?List.filter_app, ?IHHrun; auto.
    unfold configure. case_bool_decide; destruct (canUseInstancedArrays c); done. }
  assert (Hd : List.filter is_element_bind (disable_events locs) = []).
  { clear. induction locs; cbn; auto. }
  unfold register_open, register_close, element_bind.
  destruct o; unfold emitted; cbn [snd];
    destruct (Primitive.indexBufferBinding p); cbn;
    rewrite ?List.filter_app, ?Ht, ?Hd; cbn; rewrite ?Ht, ?Hd, ?app_nil_r; reflexivity.
Qed.

(** C6, on the code: with vertex array objects, a program first drawn
    while the primitive has no index buffer keeps its cached vertex array
    object when the primitive gets one; the next draw issues
    [drawElements] although no call ever bound the index buffer to
    [ELEMENT_ARRAY_BUFFER]. *)
Lemma stale_vao_indexed_draw_without_index_buffer :
  let rs := draws Sample.vao_instanced
              [mkDrawCall Sample.triangle Sample.lit Sample.triangles;
               mkDrawCall Sample.indexed_triangle Sample.lit Sample.triangles]
              Sample.fresh in
  let t := flat_map (fun x => emitted x.2) rs in
  map (fun x => outcome x.2) rs = [Returned tt; Returned tt] /\
  List.filter is_indexed_draw t = [GL (gl.drawElements 4 3 5123 0)] /\
  List.filter is_element_bind t = [].
Proof. vm_compute. repeat split. Qed.

(** ** C8: what a call of [draw] leaves bound *)

Lemma issued_enabled c p sub : enabled_locs (issued c p sub) = [].
Proof.
  unfold issued, draw_issue.
  destruct (negb _), (canUseInstancedArrays c), (Primitive.indexBufferBinding p),
    (_useVao c); reflexivity.
Qed.


(** Disabling the locations of [locs] leaves enabled only what was
    enabled before and is not among them. *)
Lemma disable_events_attrib loc locs : forall before,
  attrib_enabled_after loc (disable_events locs) before
  = before && negb (existsb (fun l => l =? loc) locs).
Proof.
  unfold disable_events.
  induction locs as [|l locs IH]; intros before; cbn [map attrib_enabled_after existsb].
  - by rewrite andb_true_r.
  - rewrite IH. destruct (l =? loc), before; cbn; done.
Qed.





(** ** C9: attributes the primitive does not provide *)

Section LoopOutcome.
Variables (c : Caps) (p : Primitive.t).

Lemma loop_run_bindable attrs last o locs t :
  loop_run c p attrs last o locs t ->
  o = if bindable p attrs then Returned tt else Thrown TypeError.
Proof.
  unfold bindable.
  induction 1 as [|? ? ? ? ? ? ? IH|? ? ? ? ? ? ? Hloc Hel ? IH
                  |? ? ? ? ? Hloc Hel Hb|? ? ? ? ? ? ? ? ? Hloc Hel Hb ? IH
                  |? ? ? ? Hloc Hel];
    cbn [forallb]; [done|..]; unfold bound_ok at 1; cbn [fst snd];
    rewrite ?Hel, ?Hb; try apply Z.eqb_neq in Hloc as ->; cbn; done.
Qed.

Lemma reached_bindable attrs : bindable p attrs = true -> reached p attrs = attrs.
Proof.
  unfold bindable. induction attrs as [|a attrs IH]; cbn; [done|].
  destruct (bound_ok p a); cbn; [|done]. intros H. by rewrite IH.
Qed.

(** What the loop enables and what it warns about, whether it returns
    or throws: the attributes it got through, and nothing after. *)
Lemma loop_run_reached attrs last o locs t :
  loop_run c p attrs last o locs t ->
  locs = map snd (List.filter (configurable p) (reached p attrs)) /\
  warnings t = map not_found (List.filter (missing p) (reached p attrs)).
Proof.
  induction 1 as [|? ? ? ? ? ? ? [IHl IHw]|? ? ? ? ? ? ? Hloc Hel ? [IHl IHw]
                  |? ? ? ? ? Hloc Hel Hb|? ? ? ? ? ? ? ? ? Hloc Hel Hb ? [IHl IHw]
                  |? ? ? ? Hloc Hel];
    cbn [reached]; unfold bound_ok, configurable, missing in *; cbn [fst snd] in *;
    rewrite ?Hel, ?Hb; try (apply Z.eqb_neq in Hloc; rewrite ?Hloc);
    cbn; rewrite ?Hel, ?Hloc, ?warnings_app, ?configure_warnings; cbn;
    rewrite <- ?IHl, ?IHw; done.
Qed.

(** Every configurable attribute the loop gets through has its
    [vertexAttribPointer]. *)
Lemma loop_run_pointer attrs last o locs t :
  loop_run c p attrs last o locs t ->
  forall name loc el b,
    In (name, loc) (reached p attrs) -> loc <> -1 ->
    object_get (Primitive._vertexElementMap p) name = Own el ->
    array_get (Primitive.vertexBufferBindings p) (VertexElement.bindingIndex el) = Some b ->
    In (GL (gl.vertexAttribPointer loc
              (ElementInfo.size (VertexElement._glElementInfo el))
              (ElementInfo.type (VertexElement._glElementInfo el))
              (VertexElement.normalized el) (VertexBufferBinding.stride b)
              (VertexElement.offset el))) t.
Proof.
  induction 1 as [|? ? ? ? ? ? ? IH|? ? ? ? ? ? ? Hloc Hel ? IH
                  |? ? ? ? ? Hloc Hel Hb|? ? ? ? ? ? ? ? ? Hloc Hel Hb ? IH
                  |? ? ? ? Hloc Hel];
    intros name' loc' el' b'; cbn [reached]; unfold bound_ok; cbn [fst snd];
    rewrite ?Hel, ?Hb; try (apply Z.eqb_neq in Hloc as Hloc'; rewrite ?Hloc');
    cbn; intros Hin Hne Hel' Hb'; try (by destruct Hin).
  - destruct Hin as [[= <- <-]|Hin]; [done|]. by eapply IH.
  - destruct Hin as [[= <- <-]|Hin]; [congruence|]. right. by eapply IH.
  - apply in_or_app. destruct Hin as [[= <- <-]|Hin]; [|right; by eapply IH].
    left. assert (el' = el) as -> by congruence.
    assert (b' = b) as -> by congruence.
    unfold configure. apply in_or_app. right. apply in_or_app. left. cbn. auto.
Qed.
End LoopOutcome.

(** C9 as stated fails in three ways, each a [TypeError] at
    [const { buffer, stride } = vertexBufferBindings[element.bindingIndex]].
    A vertex element that refers to a vertex buffer binding that does
    not exist: with [NORMAL] first, nothing is enabled, and [POSITION],
    which comes after it and is neither unused nor missing, is not
    configured.  A vertex element that refers to an empty slot of
    [vertexBufferBindings].  And an attribute named like a member of
    [Object.prototype]: the primitive has no vertex element of that
    name, yet no warning is logged and the attributes after it are not
    configured. *)
Lemma bindBufferAndAttrib_may_throw :
  let r := bindBufferAndAttrib Sample.instanced_only Sample.unbound_normals
             lit_normal_first Sample.fresh in
  let r' := bindBufferAndAttrib Sample.instanced_only sparse_triangle Sample.lit
              Sample.fresh in
  let r'' := bindBufferAndAttrib Sample.instanced_only Sample.triangle with_constructor
               Sample.fresh in
  (outcome r = Thrown TypeError /\
   enabled_locs (emitted r) = [] /\
   map snd (List.filter (configurable Sample.unbound_normals)
              (ShaderProgram.attributeLocation lit_normal_first)) = [1; 0] /\
   ~ tolerates_mismatches Sample.instanced_only Sample.unbound_normals lit_normal_first
       Sample.fresh) /\
  (outcome r' = Thrown TypeError /\
   ~ tolerates_mismatches Sample.instanced_only sparse_triangle Sample.lit Sample.fresh) /\
  (outcome r'' = Thrown TypeError /\
   Primitive._vertexElementMap Sample.triangle !! "constructor" = None /\
   warnings (emitted r'') = [] /\
   enabled_locs (emitted r'') = [0] /\
   ~ tolerates_mismatches Sample.instanced_only Sample.triangle with_constructor
       Sample.fresh).
Proof.
  repeat split; try reflexivity;
    intros (Hret & _); vm_compute in Hret; discriminate.
Qed.

(** C9, amended.  After [bindBufferAndAttrib], [attribLocArray] holds
    exactly the locations that were enabled, in order.  It goes through
    the attributes in order and throws a [TypeError] at the first one
    with a location other than [-1] whose vertex element refers to a
    vertex buffer binding that does not exist, or whose name is not a
    key of [_vertexElementMap] but a member of [Object.prototype]; it
    returns if there is none.  Of the attributes it gets through, and of
    no other, those with a location other than [-1] and a vertex element
    are enabled, each with its [vertexAttribPointer] call, and those
    with a location other than [-1] whose name gives [undefined] are
    warned about; an attribute with location [-1] causes no call.  When
    it returns it has got through all the attributes, and [draw]
    returns too, having issued the selected draw call unless it took
    the unsupported-instancing branch. *)
Theorem bindBufferAndAttrib_tolerates_mismatches c p sp s :
  let attrs := ShaderProgram.attributeLocation sp in
  let r := bindBufferAndAttrib c p sp s in
  attribLocArray (final r) = Some (enabled_locs (emitted r)) /\
  outcome r = (if bindable p attrs then Returned tt else Thrown TypeError) /\
  enabled_locs (emitted r) = map snd (List.filter (configurable p) (reached p attrs)) /\
  warnings (emitted r) = map not_found (List.filter (missing p) (reached p attrs)) /\
  (forall name loc el b,
     In (name, loc) (reached p attrs) -> loc <> -1 ->
     object_get (Primitive._vertexElementMap p) name = Own el ->
     array_get (Primitive.vertexBufferBindings p) (VertexElement.bindingIndex el) = Some b ->
     In (GL (gl.vertexAttribPointer loc
               (ElementInfo.size (VertexElement._glElementInfo el))
               (ElementInfo.type (VertexElement._glElementInfo el))
               (VertexElement.normalized el) (VertexBufferBinding.stride b)
               (VertexElement.offset el))) (emitted r)) /\
  (bindable p attrs = true ->
   reached p attrs = attrs /\
   forall sub,
     outcome (draw c p sp sub s) = Returned tt /\
     draw_calls (emitted (draw c p sp sub s))
     = if instancing_unsupported c p then [] else [GL (selected_draw p sub)]).
Proof.
  intros attrs r. subst r.
  destruct (bindBufferAndAttrib_spec c p sp s) as (o & locs & t & Hrun & Hb).
  pose proof (loop_run_bindable _ _ _ _ _ _ _ Hrun) as Ho. fold attrs in Ho, Hrun.
  pose proof (loop_run_enabled _ _ _ _ _ _ _ Hrun) as Hen.
  destruct (loop_run_reached _ _ _ _ _ _ _ Hrun) as [Hlocs Hw].
  rewrite Hb. unfold final, emitted, outcome. cbn [fst snd].
  split; [|split; [|split; [|split; [|split]]]].
  - autorewrite with trace. rewrite Hen. destruct o; cbn; by rewrite ?app_nil_r.
  - done.
  - autorewrite with trace. rewrite Hen, Hlocs. destruct o; cbn; by rewrite ?app_nil_r.
  - autorewrite with trace. rewrite Hw. destruct o; cbn; by rewrite ?app_nil_r.
  - intros name loc el b Hin Hne Hel Hbd. apply in_or_app. left.
    by eapply loop_run_pointer.
  - intros Hbind. split; [by apply reached_bindable|]. intros sub.
    change ((draw c p sp sub s).1.1) with (outcome (draw c p sp sub s)).
    change ((draw c p sp sub s).2) with (emitted (draw c p sp sub s)).
    assert (Hret : outcome (draw c p sp sub s) = Returned tt).
    { clear -Hbind. subst attrs.
      draw_cases c p sp sub s; unfold outcome; cbn [fst]; try done;
        pose proof (loop_run_bindable _ _ _ _ _ _ _ Hrun) as Ho;
        rewrite Hbind in Ho; discriminate. }
    split; [exact Hret|].
    rewrite draw_draw_calls, Hret. apply issued_draw_calls.
Qed.

(** A witness of C9, amended: with an unused and a missing attribute,
    [POSITION] and [NORMAL] are configured, one warning is logged and
    the draw call is issued. *)
Lemma bindBufferAndAttrib_tolerates_mismatches_witness :
  let r := bindBufferAndAttrib Sample.instanced_only Sample.triangle Sample.lit
             Sample.fresh in
  outcome r = Returned tt /\
  enabled_locs (emitted r) = [0; 1] /\
  warnings (emitted r) = ["vertex attribute not found: TEXCOORD_0"] /\
  draw_calls (emitted (draw Sample.instanced_only Sample.triangle Sample.lit
                         Sample.triangles Sample.fresh))
  = [GL (gl.drawArrays 4 0 3)].
Proof.
  intros r.
  destruct (bindBufferAndAttrib_tolerates_mismatches Sample.instanced_only
              Sample.triangle Sample.lit Sample.fresh)
    as (_ & Hret & Hen & Hw & _ & H).
  destruct (H eq_refl) as (_ & Hdraw).
  split; [exact Hret|]. split; [exact Hen|]. split; [exact Hw|].
  apply (Hdraw Sample.triangles).
Defined.

(** ** C10: [destroy] *)

(** C10.  [destroy] returns, whatever the state, and leaves it as it is.
    With vertex array objects its calls are one [deleteVertexArray] per
    entry of the cache map, in the order of the map, and nothing else;
    without them it makes no call. *)
Theorem destroy_deletes_cached_vaos c s :
  let r := destroy c s in
  outcome r = Returned tt /\
  final r = s /\
  emitted r = (if _useVao c then delete_events (JSMap.values (vao s)) else []) /\
  length (emitted r) = (if _useVao c then length (vao s) else 0%nat) /\
  Forall (fun e => is_delete e = true) (emitted r).
Proof.
  cbv zeta. rewrite destroy_spec. unfold outcome, final, emitted. cbn [fst snd].
  split; [done|]. split; [done|]. split; [done|].
  destruct (_useVao c); [|split; [done|constructor]].
  unfold delete_events, JSMap.values. rewrite !length_map. split; [done|].
  apply Forall_forall. intros e He. apply list_elem_of_In, in_map_iff in He.
  by destruct He as (v & <- & _).
Qed.

(** * Further properties of the code *)

(** ** When [draw] throws *)

(** A call of [draw] throws exactly when it runs [bindBufferAndAttrib]
    (there are no vertex array objects, or the program's id is not in
    the cache) and some attribute with a location other than [-1] either
    has a vertex element whose vertex buffer binding does not exist (an
    index outside [vertexBufferBindings] or an empty slot of it), or has
    a name that is not a key of [_vertexElementMap] but a member of
    [Object.prototype]; what is thrown is a [TypeError].  A draw with a
    cached id returns whatever the primitive has become. *)
Theorem draw_throws_exactly_when c p sp sub s :
  outcome (draw c p sp sub s)
  = if (negb (_useVao c) || negb (JSMap.has (ShaderProgram.id sp) (vao s))) &&
       negb (bindable p (ShaderProgram.attributeLocation sp))
    then Thrown TypeError else Returned tt.
Proof.
  unfold JSMap.has.
  draw_cases c p sp sub s; rewrite ?Hget; unfold outcome; cbn [fst negb orb andb];
    try reflexivity;
    pose proof (loop_run_bindable _ _ _ _ _ _ _ Hrun) as Ho;
    destruct (bindable p _); cbn; congruence.
Qed.

(** The three ways to throw, and a cached draw that does not: a binding
    index outside the array, an empty slot, an attribute named
    [constructor]; and the same attribute once the program is cached. *)
Example draw_throws_examples :
  outcome (draw Sample.bare Sample.unbound_normals Sample.lit Sample.triangles
             Sample.fresh) = Thrown TypeError /\
  outcome (draw Sample.bare sparse_triangle Sample.lit Sample.triangles
             Sample.fresh) = Thrown TypeError /\
  outcome (draw Sample.bare Sample.triangle with_constructor Sample.triangles
             Sample.fresh) = Thrown TypeError /\
  outcome (draw Sample.vao_instanced Sample.triangle with_constructor Sample.triangles
             (mkState None [(3, 0%nat)] 1)) = Returned tt.
Proof. repeat split. Qed.

(** ** Calls the capabilities do not allow are never made *)

Lemma configure_permitted c loc el b last :
  Forall (fun e => permitted c e = true) (configure c loc el b last).
Proof.
  unfold configure, permitted.
  case_bool_decide; destruct (canUseInstancedArrays c) eqn:Hc;
    repeat constructor; cbn; by rewrite ?Hc.
Qed.

Lemma loop_run_permitted c p attrs last o locs t :
  loop_run c p attrs last o locs t -> Forall (fun e => permitted c e = true) t.
Proof.
  induction 1; try constructor; try done.
  apply Forall_app. split; [apply configure_permitted | done].
Qed.

Lemma disable_events_permitted c locs :
  Forall (fun e => permitted c e = true) (disable_events locs).
Proof. unfold disable_events. induction locs; constructor; done. Qed.

Lemma issued_permitted c p sub : Forall (fun e => permitted c e = true) (issued c p sub).
Proof.
  unfold issued, draw_issue, permitted.
  destruct (negb _), (canUseInstancedArrays c) eqn:Hc, (Primitive.indexBufferBinding p),
    (_useVao c); repeat constructor.
Qed.

Lemma register_open_permitted c p v :
  _useVao c = true -> Forall (fun e => permitted c e = true) (register_open p v).
Proof.
  intros Hvao. unfold register_open, element_bind, permitted.
  destruct (Primitive.indexBufferBinding p); repeat constructor; cbn; by rewrite Hvao.
Qed.

Lemma register_close_permitted c locs :
  _useVao c = true -> Forall (fun e => permitted c e = true) (register_close locs).
Proof.
  intros Hvao. unfold register_close. apply Forall_app. split.
  - unfold permitted. repeat constructor; cbn; by rewrite Hvao.
  - apply disable_events_permitted.
Qed.

(** Every call [draw] and [destroy] make is allowed by the capabilities
    the constructor read: no call of the vertex-array-object API
    ([createVertexArray], [bindVertexArray], [deleteVertexArray]) is made
    when [_useVao] is false, and no call of the instanced-arrays API
    ([vertexAttribDivisor], [drawElementsInstanced],
    [drawArraysInstanced]) when [canUseInstancedArrays] is false. *)
Theorem only_permitted_calls c p sp sub s :
  Forall (fun e => permitted c e = true) (emitted (draw c p sp sub s)) /\
  Forall (fun e => permitted c e = true) (emitted (destroy c s)).
Proof.
  split.
  - draw_cases c p sp sub s; unfold emitted; cbn [snd];
      rewrite ?Forall_app;
      repeat match goal with
        | |- _ /\ _ => split
        | |- Forall _ (register_open _ _) => by apply register_open_permitted
        | |- Forall _ (register_close _) => by apply register_close_permitted
        | |- Forall _ (issued _ _ _) => apply issued_permitted
        | |- Forall _ (disable_events _) => apply disable_events_permitted
        | H : loop_run _ _ _ _ _ _ ?t |- Forall _ ?t => by eapply loop_run_permitted
        | |- Forall _ [_] =>
            constructor; [unfold permitted; cbn; by rewrite ?Hvao | constructor]
        end.
  - rewrite destroy_spec. unfold emitted. cbn [snd].
    destruct (_useVao c) eqn:Hvao; [|constructor].
    unfold delete_events. apply Forall_forall. intros e He.
    apply list_elem_of_In, in_map_iff in He. destruct He as (v & <- & _).
    unfold permitted. cbn. by rewrite Hvao.
Qed.

(** ** The vertex buffer each attribute is specified against *)

Lemma pointer_buffers_app t1 t2 bound :
  pointer_buffers (t1 ++ t2) bound
  = pointer_buffers t1 bound ++ pointer_buffers t2 (bound_after gl.ARRAY_BUFFER t1 bound).
Proof.
  revert bound. induction t1 as [|[[| | |[]| | | | | | | |]|] t1 IH]; intros bound; cbn;
    rewrite ?IH; reflexivity.
Qed.

Lemma redundant_binds_app t1 t2 bound :
  redundant_binds (t1 ++ t2) bound
  = (redundant_binds t1 bound
     + redundant_binds t2 (bound_after gl.ARRAY_BUFFER t1 bound))%nat.
Proof.
  revert bound.
  induction t1 as [|[[| | |[] [] | | | | | | | |]|] t1 IH]; intros bound; cbn;
    rewrite ?IH; lia.
Qed.

Section Rebinding.
Variables (c : Caps) (loc : Z) (el : VertexElement.t) (b : VertexBufferBinding.t).

(** If the buffer the loop remembers is the one bound, then after
  configuring an attribute its buffer is bound, its pointer was
  specified against it, and it was not bound a second time. *)
Lemma configure_bound_after last bound :
(forall v, last = Some v -> bound = Some v) ->
bound_after gl.ARRAY_BUFFER (configure c loc el b last) bound = Some (vbo_of b).
Proof.
intros Hinv. unfold configure.
case_bool_decide as Hlast; destruct (canUseInstancedArrays c); cbn; auto.
Qed.

Lemma configure_pointer last bound :
(forall v, last = Some v -> bound = Some v) ->
pointer_buffers (configure c loc el b last) bound = [(loc, Some (vbo_of b))].
Proof.
intros Hinv. unfold configure.
case_bool_decide as Hlast; destruct (canUseInstancedArrays c); cbn;
  rewrite ?(Hinv _ Hlast); reflexivity.
Qed.

Lemma configure_redundant last :
redundant_binds (configure c loc el b last) last = 0%nat.
Proof.
unfold configure.
case_bool_decide as Hlast; destruct (canUseInstancedArrays c); cbn;
  try case_bool_decide; done.
Qed.
End Rebinding.

Lemma loop_run_pointers c p attrs last o locs t :
  loop_run c p attrs last o locs t ->
  forall bound,
    (forall v, last = Some v -> bound = Some v) ->
    pointer_buffers t bound = expected_pointers p attrs.
Proof.
  induction 1 as [|? ? ? ? ? ? ? IH|? ? ? ? ? ? ? Hloc Hel ? IH
                  |? ? ? ? ? Hloc Hel Hb|? ? ? ? ? ? ? ? ? Hloc Hel Hb ? IH
                  |? ? ? ? Hloc Hel];
    intros bound Hinv; cbn [expected_pointers];
    rewrite ?Hel, ?Hb; try apply Z.eqb_neq in Hloc as ->; auto.
  { cbn. auto. }
  rewrite pointer_buffers_app, configure_pointer, configure_bound_after by done.
  cbn. f_equal. apply IH. by intros v [= ->].
Qed.

Lemma loop_run_redundant c p attrs last o locs t :
  loop_run c p attrs last o locs t -> redundant_binds t last = 0%nat.
Proof.
  induction 1; cbn; auto.
  rewrite redundant_binds_app, configure_redundant, configure_bound_after; auto.
Qed.

(** In [bindBufferAndAttrib], skipping the [bindBuffer] of a vertex
    buffer bound at the last attribute is sound: whatever is bound to
    [ARRAY_BUFFER] when it is called, every [vertexAttribPointer] it
    makes is made while the vertex buffer of that attribute's vertex
    element is bound, for each attribute it gets to configure, in order;
    and when no buffer is bound at the start it never binds a buffer
    that is bound already. *)
Theorem bindBufferAndAttrib_pointer_buffers c p sp s bound :
  let r := bindBufferAndAttrib c p sp s in
  pointer_buffers (emitted r) bound
  = expected_pointers p (ShaderProgram.attributeLocation sp) /\
  redundant_binds (emitted r) None = 0%nat.
Proof.
  cbv zeta.
  destruct (bindBufferAndAttrib_spec c p sp s) as (o & locs & t & Hrun & ->).
  unfold emitted. cbn [snd].
  rewrite pointer_buffers_app, redundant_binds_app.
  rewrite (loop_run_pointers _ _ _ _ _ _ _ Hrun bound) by done.
  rewrite (loop_run_redundant _ _ _ _ _ _ _ Hrun).
  destruct o; cbn; by rewrite app_nil_r.
Qed.

(** ** What [destroy] deletes *)

Lemma draw_values c p sp sub s :
  let r := draw c p sp sub s in
  JSMap.values (vao (final r))
  = JSMap.values (vao s) ++
    match outcome r with
    | Returned _ => created (emitted r)
    | Thrown _ => []
    end.
Proof.
  cbv zeta.
  draw_cases c p sp sub s; unfold final, outcome, emitted; cbn [fst snd];
    autorewrite with trace; rewrite ?(loop_run_created _ _ _ _ _ _ _ Hrun);
    cbn; rewrite ?app_nil_r; try reflexivity.
  rewrite (JSMap_set_absent _ _ _ Hget). unfold JSMap.values. by rewrite map_app.
Qed.

Lemma draws_values c calls : forall s,
  JSMap.values (vao (draws_final c calls s))
  = JSMap.values (vao s) ++ registered (draws c calls s).
Proof.
  induction calls as [|d rest IH]; intros s.
  - cbn. by rewrite app_nil_r.
  - rewrite draws_final_cons, IH. unfold draw_call at 1. rewrite draw_values.
    cbn. unfold registered, draw_call. by rewrite <- app_assoc.
Qed.

(** From construction to [destroy]: after any sequence of calls of
    [draw] on a new instance, [destroy] deletes exactly the vertex array
    objects created by the calls that returned, in the order they were
    created; an object created by a call that threw is never deleted.
    Right after construction [destroy] makes no call. *)
Theorem destroy_deletes_registered rhi calls :
  let c := (new_GLPrimitive rhi).1 in
  let s0 := (new_GLPrimitive rhi).2 in
  emitted (destroy c (draws_final c calls s0))
  = delete_events (registered (draws c calls s0)) /\
  emitted (destroy c s0) = [].
Proof.
  intros c s0. assert (Hs0 : vao s0 = []) by reflexivity. clearbody c s0.
  rewrite !destroy_spec. unfold emitted. cbn [snd].
  rewrite draws_values, Hs0. cbn [JSMap.values map app].
  destruct (_useVao c) eqn:Hvao; [done|]. split; [|done].
  assert (Hnone : forall calls s, registered (draws c calls s) = []).
  { clear calls. induction calls as [|d rest IH]; intros s; [done|].
    cbn. unfold registered in IH. rewrite IH, app_nil_r.
    unfold draw_call. rewrite draw_created, Hvao. by destruct (outcome _). }
  by rewrite Hnone.
Qed.

Lemma JSMap_get_values {V} k (v : V) m : JSMap.get k m = Some v -> In v (JSMap.values m).
Proof.
  induction m as [|[k0 v0] m IH]; cbn; [done|].
  destruct (k0 =? k); [intros [= ->]; by left | right; auto].
Qed.

(** [destroy] leaves the instance as it was: a vertex array object it has
    deleted is still the one the next [draw] with that program binds,
    nothing being created in its place, and a second [destroy] deletes
    the same objects again. *)
Theorem draw_after_destroy_binds_deleted c p sp sub s v :
  _useVao c = true ->
  JSMap.get (ShaderProgram.id sp) (vao s) = Some v ->
  let d := destroy c s in
  In (GL (gl.deleteVertexArray v)) (emitted d) /\
  draw c p sp sub (final d)
  = (Returned tt, s,
     [GL (gl.bindVertexArray (Some v))] ++ issued c p sub ++
     [GL (gl.bindVertexArray None)]) /\
  emitted (destroy c (final d)) = emitted d.
Proof.
  intros Hvao Hget d. subst d. rewrite !destroy_spec.
  unfold emitted, final. cbn [fst snd]. rewrite ?destroy_spec, Hvao. cbn [snd].
  split; [|split; [by apply draw_vao_cached | done]].
  unfold delete_events. apply in_map_iff. exists v. split; [done|].
  by eapply JSMap_get_values.
Qed.

(** A cached program is drawn after [destroy] with the object that was
    deleted. *)
Lemma draw_after_destroy_binds_deleted_witness :
  let s := final (draw Sample.vao_instanced Sample.triangle Sample.lit
                    Sample.triangles Sample.fresh) in
  In (GL (gl.deleteVertexArray 0%nat)) (emitted (destroy Sample.vao_instanced s)) /\
  draw Sample.vao_instanced Sample.triangle Sample.lit Sample.triangles
    (final (destroy Sample.vao_instanced s))
  = (Returned tt, s,
     [GL (gl.bindVertexArray (Some 0%nat)); GL (gl.drawArrays 4 0 3);
      GL (gl.bindVertexArray None)]).
Proof.
  intros s.
  destruct (draw_after_destroy_binds_deleted Sample.vao_instanced Sample.triangle
              Sample.lit Sample.triangles s 0%nat eq_refl eq_refl) as (Hin & Hdraw & _).
  split; [exact Hin | exact Hdraw].
Defined.

(** ** What a vertex array object records *)

Lemma configure_alphabet c loc el b last :
  Forall (fun e => loop_event e = true) (configure c loc el b last).
Proof.
  unfold configure. case_bool_decide; destruct (canUseInstancedArrays c);
    repeat constructor.
Qed.

Lemma loop_run_alphabet c p attrs last o locs t :
  loop_run c p attrs last o locs t -> Forall (fun e => loop_event e = true) t.
Proof.
  induction 1; try constructor; try done.
  apply Forall_app. split; [apply configure_alphabet | done].
Qed.

(** Case analysis on a call of the attribute loop. *)
Ltac loop_event_cases e He :=
  destruct e as [[| | |[] []| | | | | | | |]|[]]; try discriminate He.

Lemma filter_outside (f P : Event -> bool) t :
  Forall (fun e => P e = true) t ->
  (forall e, P e = true -> f e = false) ->
  List.filter f t = [].
Proof.
  intros Ht Hf. induction Ht as [|e t He _ IH]; [done|].
  cbn. by rewrite (Hf e He).
Qed.

Lemma while_bound_app v t1 t2 cur :
  while_bound v (t1 ++ t2) cur
  = while_bound v t1 cur ++ while_bound v t2 (vertex_array_after t1 cur).
Proof.
  revert cur. induction t1 as [|[[]|] t1 IH]; intros cur; cbn;
    try case_bool_decide; cbn; rewrite ?IH; reflexivity.
Qed.

Lemma while_bound_plain v t cur :
  Forall (fun e => is_bind_vertex_array e = false) t ->
  while_bound v t cur = (if bool_decide (cur = Some v) then t else []) /\
  vertex_array_after t cur = cur.
Proof.
  induction 1 as [|e t He _ [IHw IHv]]; [by case_bool_decide|].
  destruct e as [[]|]; try discriminate He; cbn; rewrite IHw, IHv;
    case_bool_decide; done.
Qed.

Lemma loop_run_plain c p attrs last o locs t :
  loop_run c p attrs last o locs t ->
  Forall (fun e => is_bind_vertex_array e = false) t.
Proof.
  intros Hrun. eapply Forall_impl; [by eapply loop_run_alphabet|].
  intros e He. by loop_event_cases e He.
Qed.

Lemma element_bind_plain p :
  Forall (fun e => is_bind_vertex_array e = false) (element_bind p).
Proof. unfold element_bind. destruct (Primitive.indexBufferBinding p); repeat constructor. Qed.

(** The calls [registerVAO] makes while the new vertex array is bound. *)
Lemma registerVAO_while_bound c p sp s :
  exists o locs t,
    loop_run c p (ShaderProgram.attributeLocation sp) None o locs t /\
    enabled_locs (emitted (registerVAO c p sp s)) = locs /\
    while_bound (gl_created s) (emitted (registerVAO c p sp s)) None
    = element_bind p ++ t ++
      match o with
      | Returned _ => [GL (gl.bindBuffer gl.ARRAY_BUFFER None)]
      | Thrown _ => []
      end.
Proof.
  destruct (registerVAO_spec c p sp s) as (o & locs & t & Hrun & ->).
  exists o, locs, t. split; [done|].
  pose proof (loop_run_enabled _ _ _ _ _ _ _ Hrun) as Hen.
  destruct (while_bound_plain (gl_created s) t (Some (gl_created s))
              (loop_run_plain _ _ _ _ _ _ _ Hrun)) as [Hwt Hvt].
  destruct (while_bound_plain (gl_created s) (element_bind p) (Some (gl_created s))
              (element_bind_plain p)) as [Hwe Hve].
  rewrite bool_decide_eq_true_2 in Hwt, Hwe by done.
  assert (Hd : forall locs cur, cur <> Some (gl_created s) ->
                 while_bound (gl_created s) (disable_events locs) cur = []).
  { clear. intros locs cur Hcur. unfold disable_events.
    induction locs; cbn; [done|]. by rewrite bool_decide_eq_false_2. }
  assert (Hee : enabled_locs (element_bind p) = []).
  { unfold element_bind. by destruct (Primitive.indexBufferBinding p). }
  unfold register_open, register_close.
  destruct o as [[]|e]; unfold emitted; cbn [snd]; split.
  - rewrite !enabled_locs_app, Hee, Hen, disable_events_enabled. cbn.
    by rewrite app_nil_r.
  - cbn. rewrite !while_bound_app. unfold WebGLVertexArrayObject in *.
    rewrite Hwe, Hve, Hwt, Hvt. cbn.
    rewrite Hd by done. repeat case_bool_decide; simplify_eq; done.
  - rewrite !enabled_locs_app, Hee, Hen. cbn. done.
  - cbn. rewrite !while_bound_app. unfold WebGLVertexArrayObject in *.
    rewrite Hwe, Hve, Hwt. repeat case_bool_decide; simplify_eq.
    by rewrite app_nil_r.
Qed.

(** What [registerVAO] records in the vertex array object it creates:
    while that object is bound it enables every location it enables at
    all and disables none, binds the index buffer the primitive has and
    does not unbind it, and specifies each attribute against its vertex
    buffer.  The calls that disable the attributes and unbind
    [ELEMENT_ARRAY_BUFFER] all come once the object is no longer
    bound. *)
Theorem registerVAO_records c p sp s :
  let t := emitted (registerVAO c p sp s) in
  let recorded := while_bound (gl_created s) t None in
  enabled_locs recorded = enabled_locs t /\
  List.filter is_disable recorded = [] /\
  List.filter is_element_bind recorded = element_bind p /\
  List.filter is_element_unbind recorded = [] /\
  pointer_buffers recorded None
  = expected_pointers p (ShaderProgram.attributeLocation sp).
Proof.
  cbv zeta.
  destruct (registerVAO_while_bound c p sp s) as (o & locs & t & Hrun & -> & ->).
  pose proof (loop_run_alphabet _ _ _ _ _ _ _ Hrun) as Hab.
  pose proof (loop_run_enabled _ _ _ _ _ _ _ Hrun) as Hen.
  assert (Hfd : List.filter is_disable t = []).
  { apply (filter_outside _ _ _ Hab). intros e He. by loop_event_cases e He. }
  assert (Hfe : List.filter is_element_bind t = []).
  { apply (filter_outside _ _ _ Hab). intros e He. by loop_event_cases e He. }
  assert (Hfu : List.filter is_element_unbind t = []).
  { apply (filter_outside _ _ _ Hab). intros e He. by loop_event_cases e He. }
  assert (Hpe : forall bound,
             pointer_buffers (element_bind p) bound = [] /\
             bound_after gl.ARRAY_BUFFER (element_bind p) bound = bound).
  { intros bound. unfold element_bind. by destruct (Primitive.indexBufferBinding p). }
  rewrite !enabled_locs_app, !List.filter_app, Hfd, Hfe, Hfu, Hen.
  rewrite !pointer_buffers_app, (proj1 (Hpe None)), (proj2 (Hpe None)).
  rewrite (loop_run_pointers _ _ _ _ _ _ _ Hrun None) by done.
  unfold element_bind.
  destruct o, (Primitive.indexBufferBinding p); cbn; rewrite ?app_nil_r; done.
Qed.

(** ** A cached vertex array object is used as it is *)

Lemma issued_same_inputs c p p' sub :
  _useVao c = true -> same_draw_inputs p p' -> issued c p sub = issued c p' sub.
Proof.
  intros Hvao (Hi & Ht & Hb). unfold issued, draw_issue. rewrite Hvao, Hi, Ht.
  destruct (Primitive.indexBufferBinding p) as [ibb|],
    (Primitive.indexBufferBinding p') as [ibb'|]; try reflexivity.
  - destruct (proj1 Hb) as [? [=]]. by eexists.
  - destruct (proj2 Hb) as [? [=]]. by eexists.
Qed.

(** With vertex array objects, a draw with a program whose id is in the
    cache reads of the primitive only [instanceCount], [_glIndexType]
    and whether there is an index buffer binding, and of the program only
    its id: changing the vertex buffers, the vertex elements, the index
    buffer or the program's attributes changes nothing in what the call
    does. *)
Theorem cached_draw_ignores_bindings c p p' sp sp' sub s :
  _useVao c = true ->
  ShaderProgram.id sp' = ShaderProgram.id sp ->
  JSMap.has (ShaderProgram.id sp) (vao s) = true ->
  same_draw_inputs p p' ->
  draw c p' sp' sub s = draw c p sp sub s.
Proof.
  intros Hvao Hid Hhas Hsame. unfold JSMap.has in Hhas.
  destruct (JSMap.get (ShaderProgram.id sp) (vao s)) as [v|] eqn:Hget; [|done].
  rewrite (draw_vao_cached c p sp sub s v Hvao Hget).
  rewrite <- Hid in Hget. rewrite (draw_vao_cached c p' sp' sub s v Hvao Hget).
  by rewrite (issued_same_inputs c p p' sub Hvao Hsame).
Qed.

(** After a first draw of [Sample.indexed_triangle], a draw of a
    primitive with other buffers and no vertex elements, with a program
    of the same id and other attributes, does the same. *)
Lemma cached_draw_ignores_bindings_witness :
  let s := final (draw Sample.vao_instanced Sample.indexed_triangle Sample.lit
                    Sample.triangles Sample.fresh) in
  draw Sample.vao_instanced regenerated_triangle
    (ShaderProgram.mk 1 [("COLOR_0", 5)]) Sample.triangles s
  = draw Sample.vao_instanced Sample.indexed_triangle Sample.lit Sample.triangles s.
Proof.
  intros s.
  apply cached_draw_ignores_bindings; try reflexivity.
  repeat split; intros _; by eexists.
Defined.

(** ** Disabling after [bindBufferAndAttrib] *)

(** [disableAttrib] throws on an instance on which [bindBufferAndAttrib]
    has not run, [attribLocArray] being unset.  After
    [bindBufferAndAttrib], whether it returned or threw, it returns and
    disables exactly the locations that call enabled, so that none of
    them is left enabled. *)
Theorem disableAttrib_after_bind c p sp s created loc before :
  let b := bindBufferAndAttrib c p sp s in
  let d := disableAttrib (final b) in
  disableAttrib (constructed created) = (Thrown TypeError, constructed created, []) /\
  d = (Returned tt, final b, disable_events (enabled_locs (emitted b))) /\
  attrib_enabled_after loc (emitted b ++ emitted d) before
  = attrib_enabled_after loc (emitted b) before &&
    negb (existsb (fun l => l =? loc) (enabled_locs (emitted b))).
Proof.
  intros b d. split; [reflexivity|]. subst d b.
  destruct (bindBufferAndAttrib_spec c p sp s) as (o & locs & t & Hrun & ->).
  pose proof (loop_run_enabled _ _ _ _ _ _ _ Hrun) as Hen.
  unfold final, emitted. cbn [fst snd].
  rewrite (disableAttrib_spec (with_attribLocArray locs s) locs eq_refl). cbn [snd].
  assert (Hlocs : enabled_locs
                    (t ++ match o with
                          | Returned _ => [GL (gl.bindBuffer gl.ARRAY_BUFFER None)]
                          | Thrown _ => []
                          end) = locs).
  { rewrite enabled_locs_app, Hen. destruct o; cbn; by rewrite app_nil_r. }
  rewrite Hlocs. split; [done|].
  by rewrite attrib_enabled_after_app, disable_events_attrib.
Qed.

(** ** Warnings *)

Lemma loop_run_warnings c p attrs last o locs t :
  loop_run c p attrs last o locs t -> warnings t = expected_warnings p attrs.
Proof.
  induction 1 as [|? ? ? ? ? ? ? IH|? ? ? ? ? ? ? Hloc Hel ? IH
                  |? ? ? ? ? Hloc Hel Hb|? ? ? ? ? ? ? ? ? Hloc Hel Hb ? IH
                  |? ? ? ? Hloc Hel];
    cbn [expected_warnings];
    rewrite ?Hel, ?Hb; try apply Z.eqb_neq in Hloc as ->; auto.
  - cbn. by rewrite IH.
  - rewrite warnings_app, configure_warnings. done.
Qed.

Lemma issued_warnings c p sub : warnings (issued c p sub) = [].
Proof.
  unfold issued, draw_issue.
  destruct (negb _), (canUseInstancedArrays c), (Primitive.indexBufferBinding p),
    (_useVao c); reflexivity.
Qed.

Lemma register_open_warnings p v : warnings (register_open p v) = [].
Proof. unfold register_open, element_bind. by destruct (Primitive.indexBufferBinding p). Qed.

Lemma register_close_warnings locs : warnings (register_close locs) = [].
Proof. unfold register_close. cbn. apply disable_events_warnings. Qed.

(** A missing attribute is reported by every draw that runs
    [bindBufferAndAttrib]: on every call without vertex array objects,
    and with them only on a call with a program whose id is not in the
    cache; a draw with a cached id logs no warning.  The warnings are
    those of the attributes [bindBufferAndAttrib] gets through whose
    location is not [-1] and whose name gives [undefined] in
    [_vertexElementMap]; a name found in [Object.prototype] gives no
    warning, the call throws there. *)
Theorem draw_warnings c p sp sub s :
  warnings (emitted (draw c p sp sub s))
  = if _useVao c && JSMap.has (ShaderProgram.id sp) (vao s) then []
    else expected_warnings p (ShaderProgram.attributeLocation sp).
Proof.
  unfold JSMap.has.
  draw_cases c p sp sub s; rewrite ?Hget; unfold emitted; cbn [snd andb];
    rewrite ?warnings_app, ?issued_warnings, ?register_open_warnings,
      ?register_close_warnings, ?disable_events_warnings,
      ?(loop_run_warnings _ _ _ _ _ _ _ Hrun); cbn;
    rewrite ?issued_warnings, ?app_nil_r; reflexivity.
Qed.

(** ** Without vertex array objects *)

Lemma loop_run_det c p attrs last o locs t :
  loop_run c p attrs last o locs t ->
  forall o' locs' t',
    loop_run c p attrs last o' locs' t' -> o = o' /\ locs = locs' /\ t = t'.
Proof.
  induction 1 as [|? ? ? ? ? ? ? IH|? ? ? ? ? ? ? Hloc Hel ? IH
                  |? ? ? ? ? Hloc Hel Hb|? ? ? ? ? ? ? ? ? Hloc Hel Hb ? IH
                  |? ? ? ? Hloc Hel];
    intros o' locs' t' Hrun'; inversion Hrun'; simplify_eq; try done;
    try congruence;
    try (assert (el0 = el) as -> by congruence);
    try (assert (b0 = b) as -> by congruence);
    edestruct IH as (-> & -> & ->); try eassumption; done.
Qed.

Lemma loop_alphabet_element t before :
  Forall (fun e => loop_event e = true) t ->
  bound_after gl.ELEMENT_ARRAY_BUFFER t before = before.
Proof.
  intros Ht. revert before.
  induction Ht as [|e t He _ IH]; intros before; [done|].
  loop_event_cases e He; cbn; apply IH.
Qed.

(** Without vertex array objects [draw] keeps nothing from one call to
    the next: what a call does and how it ends do not depend on the
    state it starts from, it leaves the cache map and the context's
    vertex array objects as they are, and [attribLocArray] holds the
    locations of this call only. *)
Theorem draw_without_vao_is_stateless c p sp sub s s' :
  _useVao c = false ->
  let r := draw c p sp sub s in
  let r' := draw c p sp sub s' in
  outcome r = outcome r' /\
  emitted r = emitted r' /\
  attribLocArray (final r) = attribLocArray (final r') /\
  attribLocArray (final r) = Some (enabled_locs (emitted r)) /\
  vao (final r) = vao s /\
  gl_created (final r) = gl_created s.
Proof.
  intros Hvao r r'. subst r r'.
  destruct (draw_novao c p sp sub s Hvao) as (o & locs & t & Hrun & _ & ->).
  destruct (draw_novao c p sp sub s' Hvao) as (o' & locs' & t' & Hrun' & _ & ->).
  destruct (loop_run_det _ _ _ _ _ _ _ Hrun _ _ _ Hrun') as (<- & <- & <-).
  pose proof (loop_run_enabled _ _ _ _ _ _ _ Hrun) as Hen.
  destruct o as [[]|e]; unfold outcome, emitted, final; cbn [fst snd];
    repeat split; cbn;
    rewrite ?enabled_locs_app, ?issued_enabled, ?disable_events_enabled, Hen;
    cbn; by rewrite ?app_nil_r.
Qed.

(** A draw from a new instance and a draw after another draw make the
    same calls. *)
Lemma draw_without_vao_is_stateless_witness :
  let s := final (draw Sample.instanced_only Sample.indexed_triangle Sample.lit
                    Sample.triangles Sample.fresh) in
  emitted (draw Sample.instanced_only Sample.triangle Sample.lit Sample.triangles
             Sample.fresh)
  = emitted (draw Sample.instanced_only Sample.triangle Sample.lit Sample.triangles s).
Proof.
  intros s.
  apply (draw_without_vao_is_stateless Sample.instanced_only Sample.triangle
           Sample.lit Sample.triangles Sample.fresh s eq_refl).
Defined.

(** Without vertex array objects, [ELEMENT_ARRAY_BUFFER] is left unbound
    by a call that issues an indexed draw, and left as it was by every
    other call: one that throws, one without an index buffer binding,
    and one that takes the unsupported-instancing branch. *)
Theorem draw_without_vao_element_buffer c p sp sub s before :
  _useVao c = false ->
  let r := draw c p sp sub s in
  bound_after gl.ELEMENT_ARRAY_BUFFER (emitted r) before
  = match outcome r, Primitive.indexBufferBinding p with
    | Returned _, Some _ => if instancing_unsupported c p then before else None
    | _, _ => before
    end.
Proof.
  intros Hvao r. subst r.
  destruct (draw_novao c p sp sub s Hvao) as (o & locs & t & Hrun & _ & ->).
  pose proof (loop_alphabet_element t before (loop_run_alphabet _ _ _ _ _ _ _ Hrun)) as Ht.
  destruct o as [[]|e]; unfold outcome, emitted; cbn [fst snd]; [|done].
  rewrite !bound_after_app, Ht, disable_events_bound. cbn [bound_after].
  unfold issued, draw_issue, instancing_unsupported. rewrite Hvao.
  destruct (truthy _), (canUseInstancedArrays c), (Primitive.indexBufferBinding p);
    reflexivity.
Qed.

(** An indexed draw unbinds the index buffer; the same primitive on the
    unsupported-instancing branch leaves the binding alone. *)
Lemma draw_without_vao_element_buffer_witness :
  bound_after gl.ELEMENT_ARRAY_BUFFER
    (emitted (draw Sample.bare Sample.indexed_triangle Sample.lit Sample.triangles
                Sample.fresh)) (Some 40%nat) = None /\
  bound_after gl.ELEMENT_ARRAY_BUFFER
    (emitted (draw Sample.bare instanced_indexed_triangle Sample.lit Sample.triangles
                Sample.fresh)) (Some 40%nat) = Some 40%nat.
Proof.
  split.
  - apply (draw_without_vao_element_buffer Sample.bare Sample.indexed_triangle
             Sample.lit Sample.triangles Sample.fresh (Some 40%nat) eq_refl).
  - apply (draw_without_vao_element_buffer Sample.bare instanced_indexed_triangle
             Sample.lit Sample.triangles Sample.fresh (Some 40%nat) eq_refl).
Defined.

(** ** The draw call is issued with the bindings in place *)

Lemma loop_alphabet_enabled loc t before :
  Forall (fun e => loop_event e = true) t ->
  attrib_enabled_after loc t before
  = before || existsb (fun l => l =? loc) (enabled_locs t).
Proof.
  intros Ht. revert before.
  induction Ht as [|e t He _ IH]; intros before; [by rewrite orb_false_r|].
  loop_event_cases e He; cbn; rewrite IH; try done.
  destruct (_ =? loc), before; cbn; done.
Qed.

Lemma issued_plain c p sub :
  Forall (fun e => is_bind_vertex_array e = false) (issued c p sub).
Proof.
  unfold issued, draw_issue.
  destruct (negb _), (canUseInstancedArrays c), (Primitive.indexBufferBinding p),
    (_useVao c); repeat constructor.
Qed.

(** Without vertex array objects, a call of [draw] that returns makes
    its draw call after [bindBufferAndAttrib] and before the locations
    are disabled: at that point every location recorded in
    [attribLocArray] is enabled. *)
Theorem draw_without_vao_draws_enabled c p sp sub s before :
  _useVao c = false ->
  let r := draw c p sp sub s in
  outcome r = Returned tt ->
  exists pre locs,
    emitted r = pre ++ issued c p sub ++ disable_events locs /\
    attribLocArray (final r) = Some locs /\
    enabled_locs pre = locs /\
    draw_calls pre = [] /\
    (forall loc, In loc locs -> attrib_enabled_after loc pre before = true).
Proof.
  intros Hvao r. subst r.
  destruct (draw_novao c p sp sub s Hvao) as (o & locs & t & Hrun & _ & ->).
  destruct o as [[]|e]; [|done]. intros _.
  pose proof (loop_run_alphabet _ _ _ _ _ _ _ Hrun) as Hab.
  pose proof (loop_run_enabled _ _ _ _ _ _ _ Hrun) as Hen.
  exists (t ++ [GL (gl.bindBuffer gl.ARRAY_BUFFER None)]), locs.
  unfold emitted, final. cbn [fst snd].
  split; [done|]. split; [done|]. split.
  { rewrite enabled_locs_app, Hen. cbn. by rewrite app_nil_r. }
  split.
  { rewrite draw_calls_app, (loop_run_draw_calls _ _ _ _ _ _ _ Hrun). done. }
  intros loc Hin. rewrite attrib_enabled_after_app. cbn.
  rewrite (loop_alphabet_enabled loc t before Hab), Hen.
  assert (existsb (fun l => l =? loc) locs = true) as ->.
  { apply existsb_exists. exists loc. split; [done|apply Z.eqb_refl]. }
  apply orb_true_r.
Qed.

(** Locations 0 and 1 are enabled when [drawArrays] is issued. *)
Lemma draw_without_vao_draws_enabled_witness :
  exists pre,
    emitted (draw Sample.bare Sample.triangle Sample.lit Sample.triangles Sample.fresh)
    = pre ++ [GL (gl.drawArrays 4 0 3)] ++ disable_events [0; 1] /\
    attrib_enabled_after 0 pre false = true /\
    attrib_enabled_after 1 pre false = true.
Proof.
  destruct (draw_without_vao_draws_enabled Sample.bare Sample.triangle Sample.lit
              Sample.triangles Sample.fresh false eq_refl eq_refl)
    as (pre & locs & Ht & Hlocs & _ & _ & Hon).
  vm_compute in Hlocs. injection Hlocs as <-.
  exists pre. split; [exact Ht|]. split; apply Hon; cbn; auto.
Defined.

Lemma register_close_vertex_array locs before :
  vertex_array_after (register_close locs) before = None.
Proof.
  unfold register_close. rewrite vertex_array_after_app. cbn.
  unfold disable_events. induction locs; cbn; auto.
Qed.

(** With vertex array objects, a call of [draw] that returns has its
    program's id in the cache afterwards, and every draw call it makes
    is made while the vertex array object cached for that id is
    bound. *)
Theorem draw_with_vao_draws_bound c p sp sub s :
  _useVao c = true ->
  let r := draw c p sp sub s in
  outcome r = Returned tt ->
  exists v,
    JSMap.get (ShaderProgram.id sp) (vao (final r)) = Some v /\
    draw_calls (while_bound v (emitted r) None) = draw_calls (emitted r).
Proof.
  intros Hvao r. subst r.
  pose proof (while_bound_plain) as Hplain.
  destruct (JSMap.get (ShaderProgram.id sp) (vao s)) as [v|] eqn:Hget.
  - rewrite (draw_vao_cached c p sp sub s v Hvao Hget). intros _. exists v.
    unfold final, emitted. cbn [fst snd]. split; [done|].
    cbn. rewrite while_bound_app.
    destruct (Hplain v (issued c p sub) (Some v) (issued_plain c p sub)) as [-> ->].
    rewrite bool_decide_eq_true_2 by done. cbn.
    by rewrite !draw_calls_app.
  - pose proof (draw_by_stages c p sp sub s) as Hd. cbv zeta in Hd.
    rewrite (draw_bind_fresh c p sp s Hvao Hget) in Hd. cbv zeta in Hd.
    pose proof (registerVAO_effect c p sp s) as [_ Hreg]. cbv zeta in Hreg.
    destruct (registerVAO_while_bound c p sp s) as (o & locs & t & Hrun & _ & Hwb).
    destruct (outcome (registerVAO c p sp s)) as [[]|e] eqn:Ho;
      unfold outcome, final, emitted in Hd; cbn [fst snd] in Hd;
      rewrite Hd; [|done]. intros _.
    unfold draw_unbind, emit. rewrite Hvao. unfold final, emitted. cbn [fst snd].
    fold (final (registerVAO c p sp s)) (emitted (registerVAO c p sp s)).
    rewrite Hreg, JSMap_get_set_eq. exists (gl_created s). split; [done|].
    assert (Hva : vertex_array_after (emitted (registerVAO c p sp s)) None = None).
    { destruct (registerVAO_spec c p sp s) as (o' & locs' & t' & Hrun' & Heq).
      rewrite Heq in Ho |- *. destruct o' as [[]|e']; [|done].
      unfold emitted. cbn [snd].
      by rewrite !vertex_array_after_app, register_close_vertex_array. }
    rewrite <- !app_assoc. rewrite while_bound_app, Hva, Hwb.
    cbn [app while_bound]. rewrite while_bound_app.
    destruct (Hplain (gl_created s) (issued c p sub) (Some (gl_created s))
                (issued_plain c p sub)) as [Hwi Hvi].
    unfold WebGLVertexArrayObject in *. rewrite Hwi, Hvi.
    rewrite bool_decide_eq_true_2 by done. cbn [while_bound].
    rewrite !draw_calls_app, (loop_run_draw_calls _ _ _ _ _ _ _ Hrun).
    assert (Hdr : draw_calls (emitted (registerVAO c p sp s)) = []).
    { destruct (registerVAO_spec c p sp s) as (o' & locs' & t' & Hrun' & ->).
      destruct o'; unfold emitted; cbn [snd]; autorewrite with trace;
        by rewrite (loop_run_draw_calls _ _ _ _ _ _ _ Hrun'). }
    rewrite Hdr. unfold element_bind.
    destruct o, (Primitive.indexBufferBinding p); cbn;
      fold (draw_calls (issued c p sub ++ [GL (gl.bindVertexArray None)]));
      rewrite ?draw_calls_app; cbn; by rewrite ?app_nil_r.
Qed.

(** The first draw of a program issues [drawElements] while the vertex
    array object it has just registered is bound. *)
Lemma draw_with_vao_draws_bound_witness :
  let r := draw Sample.vao_instanced Sample.indexed_triangle Sample.lit
             Sample.triangles Sample.fresh in
  draw_calls (while_bound 0%nat (emitted r) None) = [GL (gl.drawElements 4 3 5123 0)].
Proof.
  intros r.
  destruct (draw_with_vao_draws_bound Sample.vao_instanced Sample.indexed_triangle
              Sample.lit Sample.triangles Sample.fresh eq_refl eq_refl)
    as (v & Hv & Hdraw).
  fold r in Hv, Hdraw. vm_compute in Hv. injection Hv as <-.
  rewrite Hdraw. reflexivity.
Defined.
